(** * StackClub tutorial notebooks: the code original to the repository

    The notebooks sequence calls into the LSST Science Pipelines, scarlet,
    numpy, astropy and matplotlib.  What the repository itself contributes is
    modelled here:

    - [Py]: Python results (a value or a raised exception) and a small
      monad that threads the trace of library calls;
    - [Scarlet]: the helper [makeCatalog] of the scarlet tutorial;
    - [Deblender]: the plotting helper [showRGB];
    - [Inventory]: the shell pipelines that list the butler repositories;
    - [Weights]: the weights handed to [scarlet.Observation];
    - [Toy], [ToyDeblender]: small concrete libraries to run these on;
    - [Notebook]: the control skeleton of every code cell, with its
      execution over library calls that may raise.

    The external libraries are black boxes: a call into them returns a
    value or raises.  The facts proved of each module follow the
    definitions, in [ScarletFacts], [DeblenderFacts], [WeightsFacts],
    [InventoryFacts] and [NotebookFacts]. *)

From Stdlib Require Import String Ascii List ZArith QArith Bool Arith Lia.
From Stdlib Require Import Sorting.Sorted Permutation.
Import ListNotations.
Close Scope Q_scope.
Open Scope string_scope.

(* ================================================================== *)
(** * Python results and the call trace *)

Module Py.

(** The exceptions the modelled code can meet.  [LibraryError] stands for
    whatever an external library call raises. *)
Inductive exn : Type :=
| NameError (name : string)
| IndexError
| SyntaxError
| LibraryError (callee : string).

Inductive result (A : Type) : Type :=
| Ok (a : A)
| Raise (e : exn).
Arguments Ok {A} a.
Arguments Raise {A} e.

(** A computation reads and extends the trace of library calls made so
    far and either returns or raises. *)
Definition trace := list string.
Definition M (A : Type) : Type := trace -> result A * trace.

Definition ret {A} (a : A) : M A := fun t => (Ok a, t).

Definition bind {A B} (m : M A) (k : A -> M B) : M B :=
  fun t => match m t with
           | (Ok a, t') => k a t'
           | (Raise e, t') => (Raise e, t')
           end.

(** A call into a library: logged, then its result. *)
Definition call {A} (callee : string) (r : result A) : M A :=
  fun t => (r, (t ++ [callee])%list).

(** Reading a global name of the notebook's namespace. *)
Definition lookup {A} (name : string) (binding : option A) : M A :=
  fun t => (match binding with
            | Some a => Ok a
            | None => Raise (NameError name)
            end, t).

Definition run {A} (m : M A) : result A * trace := m [].

End Py.

Import Py.

Declare Scope py_scope.
Delimit Scope py_scope with py.
Notation "x <- m ;; k" := (bind m (fun x => k))
  (at level 61, m at next level, right associativity) : py_scope.
Notation "m ;;; k" := (bind m (fun _ => k))
  (at level 61, right associativity) : py_scope.
Open Scope py_scope.

(* ================================================================== *)
(** * The scarlet tutorial: [makeCatalog] and the weights *)

Module Scarlet.

(** Values a notebook function can hand back, as far as the docstring of
    [makeCatalog] distinguishes them. *)
Inductive pyval (catalog rms : Type) : Type :=
| PCatalog (c : catalog)
| PRms (r : rms)
| PRmsList (l : list rms)
| PTuple (a b : pyval catalog rms).
Arguments PCatalog {catalog rms} c.
Arguments PRms {catalog rms} r.
Arguments PRmsList {catalog rms} l.
Arguments PTuple {catalog rms} a b.

(** The external libraries [makeCatalog] calls, as black boxes that
    return or raise. *)
Class Libraries : Type := {
  array : Type;
  coeffs : Type;
  background : Type;
  catalog : Type;
  data : Type;
  rms : Type;
  float : Type;
  (** numpy: [np.sum(a, axis=0)], [np.size(a.shape)], [a.mean(axis=0)] *)
  np_sum_axis0 : array -> result array;
  np_size_shape : array -> nat;
  mean_axis0 : array -> result array;
  (** scarlet: [Starlet(image, lvl=...).coefficients] (the [lvl] keyword
      is optional), [Starlet(coefficients=w).image], and numpy indexing of
      the coefficient cube: [w[:, k, :, :] = 0] and [w[i][j]] *)
  Starlet_coefficients : array -> option Z -> result coeffs;
  Starlet_image : coeffs -> result array;
  setitem_scale_zero : coeffs -> Z -> result coeffs;
  getitem2 : coeffs -> Z -> Z -> result array;
  (** [data.images] *)
  images : data -> array
}.

Section MakeCatalog.

Context {L : Libraries}.

(** The module [sep], for a namespace that binds it. *)
Record sep_module : Type := {
  Background : array -> result background;
  globalrms : background -> float;
  extract : array -> Z -> float -> result catalog
}.

(** The global names the body of [makeCatalog] reads that are neither
    parameters nor locals.  [np] and [Starlet] are imported by the
    notebook (cell at lines 693 and 698). *)
Record globals : Type := {
  g_sep : option sep_module;
  g_datas : option (list data);
  g_mad_wavelet : option (array -> result rms)
}.

(** The namespace of the notebook: no cell imports [sep] or defines
    [datas] or [mad_wavelet]. *)
Definition notebook_globals : globals :=
  {| g_sep := None; g_datas := None; g_mad_wavelet := None |}.

(** Lines 1007-1024: the detection image. *)
Definition detection_image (cube : array) (wave : bool) : M array :=
  detect_image <- call "np.sum" (np_sum_axis0 cube) ;;
  if Nat.eqb (np_size_shape detect_image) 3 then
    if wave then
      band_mean <- call "mean" (mean_axis0 detect_image) ;;
      wave_detect <- call "Starlet" (Starlet_coefficients band_mean (Some 4%Z)) ;;
      wave_detect <- call "setitem" (setitem_scale_zero wave_detect (-1)%Z) ;;
      call "Starlet.image" (Starlet_image wave_detect)
    else
      call "mean" (mean_axis0 detect_image)
  else
    if wave then
      wave_detect <- call "Starlet" (Starlet_coefficients detect_image None) ;;
      call "getitem" (getitem2 wave_detect 0%Z 0%Z)
    else
      ret detect_image.


(** Lines 1032-1034: [for data in datas: bg_rms.append(mad_wavelet(data.images))] *)
Fixpoint rms_loop (g : globals) (ds : list data) (bg_rms : list rms)
  : M (pyval catalog rms) :=
  match ds with
  | [] => ret (PRmsList bg_rms)
  | d :: ds' =>
      mad_wavelet <- lookup "mad_wavelet" (g_mad_wavelet g) ;;
      r <- call "mad_wavelet" (mad_wavelet (images d)) ;;
      rms_loop g ds' (bg_rms ++ [r])%list
  end.

(** Lines 1029-1034: the background level of each data set. *)
Definition background_rms (g : globals) : M (pyval catalog rms) :=
  datas <- lookup "datas" (g_datas g) ;;
  if Nat.eqb (length datas) 1 then
    mad_wavelet <- lookup "mad_wavelet" (g_mad_wavelet g) ;;
    datas' <- lookup "datas" (g_datas g) ;;
    match datas' with
    | [] => fun t => (Raise IndexError, t)
    | d0 :: _ =>
        r <- call "mad_wavelet" (mad_wavelet (images d0)) ;;
        ret (PRms r)
    end
  else
    datas' <- lookup "datas" (g_datas g) ;;
    rms_loop g datas' [].

(** Lines 987-1036. *)
Definition makeCatalog (g : globals) (cube : array) (lvl : Z) (wave : bool)
  : M (pyval catalog rms) :=
  detect <- detection_image cube wave ;;
  sep <- lookup "sep" (g_sep g) ;;
  bkg <- call "sep.Background" (Background sep detect) ;;
  sep' <- lookup "sep" (g_sep g) ;;
  catalog <- call "sep.extract" (extract sep' detect lvl (globalrms sep bkg)) ;;
  bg_rms <- background_rms g ;;
  ret (PCatalog catalog).


End MakeCatalog.

End Scarlet.

(* ================================================================== *)
(** * The stack-deblender notebook: [showRGB] *)

Module Deblender.

(** astropy, lsst.geom and the pixel buffers, as black boxes. *)
Class Libraries : Type := {
  array : Type;       (* a numpy array of pixels *)
  rgb : Type;         (* the array [make_lupton_rgb] returns *)
  Box2I : Type;
  Box2D : Type;
  float : Type;
  make_lupton_rgb :
    array -> array -> array -> Z -> Z -> result rgb;
    (* image_r, image_g, image_b, stretch, Q *)
  toBox2D : Box2I -> Box2D;
  getMinX : Box2D -> float;
  getMaxX : Box2D -> float;
  getMinY : Box2D -> float;
  getMaxY : Box2D -> float
}.

Section ShowRGB.

Context {L : Libraries}.

(** A single-band image: the address of its pixel buffer and its
    bounding box. *)
Record Image : Type := { buffer : nat; bbox : Box2I }.

(** A [MultibandImage]: its single-band images by filter name, in the
    order of [image.filters]. *)
Definition MultibandImage : Type := list (string * Image).

Definition filters (image : MultibandImage) : list string := map fst image.

(** [image[f]] for a filter name [f]. *)
Fixpoint getitem (image : MultibandImage) (f : string) : result Image :=
  match image with
  | [] => Raise (LibraryError "MultibandImage.__getitem__")
  | (f', single) :: rest =>
      if String.eqb f' f then Ok single else getitem rest f
  end.

(** [seq[i]] on a Python sequence. *)
Definition index {A} (seq : list A) (i : nat) : result A :=
  match nth_error seq i with
  | Some a => Ok a
  | None => Raise IndexError
  end.

(** What matplotlib holds on an axes. *)
Inductive artist : Type :=
| Imshow (img : rgb) (extent : float * float * float * float)
| PlotPeak (x y : Z).

(** The state a call can touch: the pixel buffers by address, the
    artists of every axes by identifier, and the figures pyplot has
    created, each with its size and its axes. *)
Record world : Type := {
  heap : nat -> array;
  axes : nat -> list artist;
  n_axes : nat;
  figures : list ((Z * Z) * list nat)
}.

Definition W (A : Type) : Type := world -> result A * world.

Definition wret {A} (a : A) : W A := fun w => (Ok a, w).

Definition wbind {A B} (m : W A) (k : A -> W B) : W B :=
  fun w => match m w with
           | (Ok a, w') => k a w'
           | (Raise e, w') => (Raise e, w')
           end.

Definition lift {A} (r : result A) : W A := fun w => (r, w).

(** [single.array]: a view of the pixel buffer. *)
Definition array_of (single : Image) : W array :=
  fun w => (Ok (heap w (buffer single)), w).

(** [fig = plt.figure(figsize=figsize); ax = fig.add_subplot(1,1,1)] *)
Definition new_figure_axes (figsize : Z * Z) : W nat :=
  fun w => (Ok (n_axes w),
            {| heap := heap w;
               axes := axes w;
               n_axes := S (n_axes w);
               figures := (figures w ++ [(figsize, [n_axes w])])%list |}).

(** [ax.imshow(...)] and [ax.plot(...)]: one more artist on [ax]. *)
Definition draw (ax : nat) (a : artist) : W unit :=
  fun w => (Ok tt,
            {| heap := heap w;
               axes := fun i => if Nat.eqb i ax
                                then (axes w i ++ [a])%list
                                else axes w i;
               n_axes := n_axes w;
               figures := figures w |}).

Fixpoint plot_peaks (ax : nat) (peaks : list (Z * Z)) : W unit :=
  match peaks with
  | [] => wret tt
  | (ix, iy) :: rest =>
      wbind (draw ax (PlotPeak ix iy)) (fun _ => plot_peaks ax rest)
  end.

(** Lines 197-198: with exactly three bands the filters of the image
    replace [bgr]. *)
Definition effective_bgr (image : MultibandImage) (bgr : list string)
  : list string :=
  if Nat.eqb (length image) 3 then filters image else bgr.

(** Lines 200-203: the three keyword arguments are evaluated in the
    order written, then the call is made. *)
Definition compose_rgb (image : MultibandImage) (bgr : list string)
           (stretch Q : Z) : W rgb :=
  wbind (lift (index bgr 2)) (fun f2 =>
  wbind (lift (getitem image f2)) (fun s2 =>
  wbind (array_of s2) (fun image_r =>
  wbind (lift (index bgr 1)) (fun f1 =>
  wbind (lift (getitem image f1)) (fun s1 =>
  wbind (array_of s1) (fun image_g =>
  wbind (lift (index bgr 0)) (fun f0 =>
  wbind (lift (getitem image f0)) (fun s0 =>
  wbind (array_of s0) (fun image_b =>
  lift (make_lupton_rgb image_r image_g image_b stretch Q)))))))))).

(** Lines 171-216.  [ax] is an axes identifier or [None]; [fp] is the
    peak list of a footprint or [None]. *)
Definition showRGB (image : MultibandImage) (bgr : list string)
           (ax : option nat) (fp : option (list (Z * Z)))
           (figsize : Z * Z) (stretch Q : Z) : W unit :=
  let bgr := effective_bgr image bgr in
  wbind (compose_rgb image bgr stretch Q) (fun rgb_ =>
  wbind (match ax with
         | None => new_figure_axes figsize
         | Some a => wret a
         end) (fun ax =>
  wbind (lift (index bgr 0)) (fun f0 =>
  wbind (lift (getitem image f0)) (fun s0 =>
  let box := toBox2D (bbox s0) in
  wbind (draw ax (Imshow rgb_
                    (getMinX box, getMaxX box, getMinY box, getMaxY box)))
        (fun _ =>
  match fp with
  | None => wret tt
  | Some peaks => plot_peaks ax peaks
  end))))).


(** [image[bgr[k]].array], as a plain result. *)
Definition band (image : MultibandImage) (bgr : list string) (k : nat)
           (w : world) : result array :=
  match index bgr k with
  | Ok f => match getitem image f with
            | Ok s => Ok (heap w (buffer s))
            | Raise e => Raise e
            end
  | Raise e => Raise e
  end.

(** A computation that never writes a pixel buffer. *)
Definition keeps_heap {A} (m : W A) : Prop :=
  forall w, heap (snd (m w)) = heap w.



Definition default_figsize : Z * Z := (8, 8)%Z.
Definition default_stretch : Z := 1.
Definition default_Q : Z := 10.

End ShowRGB.

End Deblender.

(* ================================================================== *)
(** * The data inventory: listing the butler repositories *)

Module Inventory.

(** ** Lines of text *)

(** [contains pat s]: [pat] occurs in [s] (what [grep] tests for a
    pattern without metacharacters). *)
Fixpoint contains (pat s : string) : bool :=
  String.prefix pat s ||
  match s with
  | EmptyString => false
  | String _ s' => contains pat s'
  end.

(** The fields of a line for a one-character delimiter. *)
Fixpoint split_on (c : ascii) (s : string) : list string :=
  match s with
  | EmptyString => [EmptyString]
  | String a s' =>
      if Ascii.eqb a c then EmptyString :: split_on c s'
      else match split_on c s' with
           | [] => [String a EmptyString]
           | f :: fs => String a f :: fs
           end
  end.

Fixpoint join_with (c : ascii) (fields : list string) : string :=
  match fields with
  | [] => EmptyString
  | [f] => f
  | f :: fs => f ++ String c (join_with c fs)
  end.

(** ** The filesystem and the shell *)

(** A path is the list of its components below the root; a filesystem
    is the list of the paths that exist. *)
Definition path : Type := list string.
Definition filesystem : Type := list path.

Definition render (p : path) : string :=
  join_with "/" (EmptyString :: p).

(** A pattern component: a literal name or [*]. *)
Inductive gcomp : Type :=
| Lit (name : string)
| Star.

Definition hidden (name : string) : bool :=
  match name with
  | String "."%char _ => true
  | _ => false
  end.

(** [*] stands for any name that does not start with a dot. *)
Definition comp_match (g : gcomp) (name : string) : bool :=
  match g with
  | Lit s => String.eqb s name
  | Star => negb (hidden name)
  end.

Fixpoint glob_match (pat : list gcomp) (p : path) : bool :=
  match pat, p with
  | [], [] => true
  | g :: pat', name :: p' => comp_match g name && glob_match pat' p'
  | _, _ => false
  end.

Definition render_pattern (pat : list gcomp) : string :=
  join_with "/"
    (EmptyString :: map (fun g => match g with Lit s => s | Star => "*" end) pat).

(** What a command leaves on its two output streams, line by line. *)
Record streams : Type := { stdout : list string; stderr : list string }.

(** [ls -d PATTERN]: the matching paths, or, when nothing matches, the
    shell hands the pattern over as it is and [ls] complains. *)
Definition ls_d (fs : filesystem) (pat : list gcomp) : streams :=
  match filter (glob_match pat) fs with
  | [] => {| stdout := [];
             stderr := ["ls: cannot access '" ++ render_pattern pat
                        ++ "': No such file or directory"] |}
  | matches => {| stdout := map render matches; stderr := [] |}
  end.

(** [cmd | filter]: only the standard output goes through. *)
Definition pipe (s : streams) (f : list string -> list string) : streams :=
  {| stdout := f (stdout s); stderr := stderr s |}.

(** [cmd |& filter]: both streams go through. *)
Definition pipe_both (s : streams) (f : list string -> list string) : streams :=
  {| stdout := f (stdout s ++ stderr s)%list; stderr := [] |}.

(** [x = ! cmd]: IPython captures what reaches either stream. *)
Definition capture (s : streams) : list string :=
  (stdout s ++ stderr s)%list.

Definition grep_v (pat : string) (lines : list string) : list string :=
  filter (fun l => negb (contains pat l)) lines.

(** [cut -d'/' -f1-n] *)
Definition cut_fields (n : nat) (lines : list string) : list string :=
  map (fun l => join_with "/" (firstn n (split_on "/" l))) lines.

Fixpoint insert_sorted (x : string) (l : list string) : list string :=
  match l with
  | [] => [x]
  | y :: l' => if String.leb x y then x :: l else y :: insert_sorted x l'
  end.

(** [sort], in code-point order; the order it uses is of no
    consequence for the lists of the cells, which [np.unique] sorts
    again. *)
Definition sort (lines : list string) : list string :=
  fold_right insert_sorted [] lines.

(** [uniq]: adjacent repeated lines collapse. *)
Fixpoint uniq (lines : list string) : list string :=
  match lines with
  | [] => []
  | x :: rest =>
      match rest with
      | y :: _ => if String.eqb x y then uniq rest else x :: uniq rest
      | [] => [x]
      end
  end.

(** [np.unique]: the sorted distinct elements. *)
Fixpoint insert_unique (x : string) (l : list string) : list string :=
  match l with
  | [] => [x]
  | y :: l' =>
      match String.compare x y with
      | Lt => x :: l
      | Eq => l
      | Gt => y :: insert_unique x l'
      end
  end.

Definition np_unique (l : list string) : list string :=
  fold_right insert_unique [] l.

(** ** The two cells *)

Definition shared_data (marker : string) : list gcomp :=
  [Lit "project"; Lit "shared"; Lit "data"; Star; Lit marker].

Definition datasets (marker : string) : list gcomp :=
  [Lit "datasets"; Star; Lit "repo"; Lit marker].

(** Lines 138-140. *)
Definition shared_repos_with_mappers (fs : filesystem) : list string :=
  capture (pipe (pipe (pipe (pipe (ls_d fs (shared_data "_mapper"))
    (grep_v "README")) (cut_fields 5)) sort) uniq).

Definition shared_repos_with_yaml_files (fs : filesystem) : list string :=
  capture (pipe (pipe (pipe (pipe (ls_d fs (shared_data "repositoryCfg.yaml"))
    (grep_v "README")) (cut_fields 5)) sort) uniq).

Definition shared_repos (fs : filesystem) : list string :=
  np_unique (shared_repos_with_mappers fs ++ shared_repos_with_yaml_files fs)%list.

(** Lines 169-171. *)
Definition repos_with_mappers (fs : filesystem) : list string :=
  capture (pipe (pipe (pipe (pipe_both (ls_d fs (datasets "_mapper"))
    (grep_v "No such")) (cut_fields 4)) sort) uniq).

Definition repos_with_yaml_files (fs : filesystem) : list string :=
  capture (pipe (pipe (pipe (pipe_both (ls_d fs (datasets "repositoryCfg.yaml"))
    (grep_v "No such")) (cut_fields 4)) sort) uniq).

Definition repos (fs : filesystem) : list string :=
  np_unique (repos_with_mappers fs ++ repos_with_yaml_files fs)%list.

(** ** What the lists are compared with *)

(** Code-point order on lines. *)
Definition str_lt (a b : string) : Prop := String.compare a b = Lt.

(** A name is one path component: it holds no slash. *)
Fixpoint no_slash (s : string) : bool :=
  match s with
  | EmptyString => true
  | String a s' => negb (Ascii.eqb a "/") && no_slash s'
  end.

Definition well_formed (fs : filesystem) : Prop :=
  forallb (forallb no_slash) fs = true.

(** What [cut -d'/' -f1-n] makes of one line. *)
Definition cut_line (n : nat) (l : string) : string :=
  join_with "/" (firstn n (split_on "/" l)).

Definition is_marker (name : string) : Prop :=
  name = "_mapper" \/ name = "repositoryCfg.yaml".

(** The directory a line of either listing stands for. *)
Definition shared_dir (d : string) : path := ["project"; "shared"; "data"; d].
Definition datasets_dir (d : string) : path := ["datasets"; d; "repo"].

(** A glob has something to expand to. *)
Definition matched (fs : filesystem) (pat : list gcomp) : Prop :=
  exists p, In p fs /\ glob_match pat p = true.



(** ** Sample filesystems *)

Definition sample_fs : filesystem :=
  [ ["project"; "shared"; "data"; "Twinkles_subset"; "_mapper"];
    ["project"; "shared"; "data"; "with-globular"; "repositoryCfg.yaml"];
    ["project"; "shared"; "data"; "with-globular"; "_mapper"];
    ["project"; "shared"; "data"; "README_files"; "_mapper"];
    ["project"; "shared"; "data"; "notes.txt"];
    ["datasets"; "hsc"; "repo"; "_mapper"];
    ["datasets"; "README_old"; "repo"; "_mapper"];
    ["datasets"; "des_sn"; "repo"; "repositoryCfg.yaml"] ].

(** A shared area in which no directory has a [_mapper]. *)
Definition yaml_only_fs : filesystem :=
  [ ["project"; "shared"; "data"; "with-globular"; "repositoryCfg.yaml"] ].

End Inventory.

(* ================================================================== *)
(** * The scarlet tutorial: the weights of the observation *)

Module Weights.

Section Weights.

(** The pixel type with the arithmetic numpy applies to it. *)
Context {F : Type} (one : F) (div : F -> F -> F) (pow : F -> Z -> F).

(** A 3-D array, indexed [band][y][x]. *)
Definition cube : Type := list (list (list F)).

Definition map3 (f : F -> F) (a : cube) : cube := map (map (map f)) a.

Definition pixel (a : cube) (b y x : nat) : option F :=
  match nth_error a b with
  | Some plane =>
      match nth_error plane y with
      | Some row => nth_error row x
      | None => None
      end
  | None => None
  end.

(** numpy broadcasting: [a ** k] and [s / a] act on every element. *)
Definition power (a : cube) (k : Z) : cube := map3 (fun v => pow v k) a.
Definition rdiv (s : F) (a : cube) : cube := map3 (fun v => div s v) a.

(** Lines 906-907: [var = subset.variance.array; weights = 1 / (var ** 2)] *)
Definition weights (var : cube) : cube := rdiv one (power var 2).

(** The keyword arguments [scarlet.Observation] is called with. *)
Record Observation (I P : Type) : Type := {
  obs_images : I;
  obs_psfs : P;
  obs_channels : list string;
  obs_weights : cube
}.

(** Line 943:
    [scarlet.Observation(images, psfs=scarlet.ImagePSF(psfs),
                         channels=filters, weights=weights)],
    with [weights] as bound at line 907. *)
Definition observation {I P} (images : I) (image_psf : P)
           (filters : list string) (var : cube) : Observation I P :=
  {| obs_images := images;
     obs_psfs := image_psf;
     obs_channels := filters;
     obs_weights := weights var |}.

End Weights.

Arguments obs_images {F I P} _.
Arguments obs_psfs {F I P} _.
Arguments obs_channels {F I P} _.
Arguments obs_weights {F I P} _.

(** Exact rationals for the pixel values. *)
Definition weightsQ : list (list (list Q)) -> list (list (list Q)) :=
  weights 1%Q Qdiv Qpower.

Definition sample_variance : list (list (list Q)) :=
  [ [ [2%Q; 4%Q]; [1%Q; (1 # 2)%Q] ] ].

End Weights.

(* ================================================================== *)
(** * Small concrete libraries, to run the definitions *)

Module Toy.

Import Scarlet.

(** An array is known by its shape and a label. *)
Record toy_array : Type := { shape : list nat; label : string }.

Definition drop_axis0 (callee : string) (a : toy_array) : result toy_array :=
  match shape a with
  | [] => Raise (LibraryError callee)
  | _ :: rest => Ok {| shape := rest; label := label a |}
  end.

#[export] Instance toy_libraries : Libraries := {|
  array := toy_array;
  coeffs := nat * toy_array;
  background := toy_array;
  catalog := list (Z * Z);
  data := toy_array;
  rms := Z;
  float := Z;
  np_sum_axis0 := drop_axis0 "np.sum";
  np_size_shape := fun a => length (shape a);
  mean_axis0 := drop_axis0 "mean";
  Starlet_coefficients := fun a lvl =>
    Ok (match lvl with Some n => Z.to_nat n | None => 3 end, a);
  Starlet_image := fun w => Ok (snd w);
  setitem_scale_zero := fun w k => Ok w;
  getitem2 := fun w i j => Ok (snd w);
  images := fun d => d
|}.

Definition toy_sep : sep_module :=
  {| Background := fun a => Ok a;
     globalrms := fun b => 1%Z;
     extract := fun a lvl err => Ok [(lvl, err)] |}.

(** Six bands of 180 by 180 pixels, as the tutorial cuts them out. *)
Definition images_cube : toy_array :=
  {| shape := [6; 180; 180]; label := "images" |}.

Definition bound_globals : globals :=
  {| g_sep := Some toy_sep;
     g_datas := Some [images_cube];
     g_mad_wavelet := Some (fun a => Ok 0%Z) |}.

End Toy.

Module ToyDeblender.

Import Deblender.

(** Pixels are integers; a colour pixel is the triple of the stretched
    bands; boxes are (minX, minY, maxX, maxY). *)
Fixpoint zip3 (r g b : list Z) : list (Z * Z * Z) :=
  match r, g, b with
  | x :: r', y :: g', z :: b' => (x, y, z) :: zip3 r' g' b'
  | _, _, _ => []
  end.

#[export] Instance toy_libraries : Libraries := {|
  array := list Z;
  rgb := list (Z * Z * Z);
  Box2I := Z * Z * Z * Z;
  Box2D := Q * Q * Q * Q;
  float := Q;
  make_lupton_rgb := fun r g b stretch q_ =>
    if Z.eqb stretch 0 then Raise (LibraryError "make_lupton_rgb")
    else Ok (zip3 r g b);
  toBox2D := fun '(x0, y0, x1, y1) =>
    ((inject_Z x0 - (1 # 2))%Q, (inject_Z y0 - (1 # 2))%Q,
     (inject_Z x1 + (1 # 2))%Q, (inject_Z y1 + (1 # 2))%Q);
  getMinX := fun '(x0, _, _, _) => x0;
  getMaxX := fun '(_, _, x1, _) => x1;
  getMinY := fun '(_, y0, _, _) => y0;
  getMaxY := fun '(_, _, _, y1) => y1
|}.

Definition box : Z * Z * Z * Z := (0, 0, 1, 0)%Z.

(** Five bands, as the coadds of the notebook, and a three-band slice. *)
Definition grizy : MultibandImage :=
  [ ("g", {| buffer := 0; bbox := box |});
    ("r", {| buffer := 1; bbox := box |});
    ("i", {| buffer := 2; bbox := box |});
    ("z", {| buffer := 3; bbox := box |});
    ("y", {| buffer := 4; bbox := box |}) ].


Definition world0 : world :=
  {| heap := fun a => [Z.of_nat a; (10 + Z.of_nat a)%Z];
     axes := fun _ => [];
     n_axes := 0;
     figures := [] |}.

End ToyDeblender.

(* ================================================================== *)
(** * The notebooks, cell by cell *)

Module Notebook.

(** ** The control skeleton of a code cell

    A cell is kept as its statements: for each simple statement the names
    it binds and the calls it makes, in the order of evaluation; for each
    call the name called and, of its arguments, the names and the
    one-line string literals that occur outside nested calls, in source
    order.  A comprehension is the loop it stands for.  A shell escape is
    the list of the commands of its line, each with its words.  A comment
    line that holds code is kept as [Comment]; prose comments and
    docstrings are left out.  [line] is the line of the source file at
    which the cell starts. *)

Inductive arg : Type :=
| Var (name : string)
| Str (text : string).

Record call : Type := Call { callee : string; args : list arg }.

(** What a loop runs over: a literal sequence (written in place, or
    the string a top-level statement of the notebook last bound to the
    name, as [filters = "grizy"] at line 131), or a value only known
    when the notebook runs. *)
Inductive iterable : Type :=
| Items (xs : list string)
| Dynamic (source : string).

Inductive stmt : Type :=
| Skip
| Seq (s1 s2 : stmt)
| Simple (defs : list string) (calls : list call)
| Return (calls : list call)
| Import (modname : string) (binds : list string)
| Shell (defs : list string) (commands : list (list string))
| Magic (words : list string)
| For (targets : list string) (iter : iterable) (body : stmt)
| If (test : list call) (body orelse : stmt)
| Try (body handler : stmt)
| Def (name : string) (params : list string) (body : stmt)
| Class (name : string) (bases : list string) (body : stmt)
| Comment (text : string)
| Invalid.

Fixpoint block (l : list stmt) : stmt :=
  match l with
  | [] => Skip
  | [s] => s
  | s :: l' => Seq s (block l')
  end.

Record cell : Type := { line : nat; code : stmt }.

Definition notebook : Type := list cell.


(** Deblending with Scarlet (part_000, lines 638-1575) *)
Definition scarlet_tutorial : notebook :=
  [ {| line := 673; code :=
      block [
        Shell [] [["echo"; "$HOSTNAME"]];
        Shell [] [["eups"; "list"; "-s"]; ["grep"; "lsst_distrib"]] ] |};
    {| line := 684; code :=
      block [
        Import "os" ["os"];
        Magic ["matplotlib"; "inline"];
        Import "matplotlib" ["matplotlib"];
        Import "matplotlib.pyplot" ["plt"];
        Simple [] [Call "matplotlib.rc" [Str "image"; Str "none"]];
        Import "numpy" ["np"];
        Import "astropy.visualization.lupton_rgb" ["AsinhMapping"];
        Import "scarlet" ["scarlet"];
        Import "scarlet.display" ["scarlet"];
        Import "scarlet" ["Starlet"];
        Import "pickle" ["pickle"];
        Import "astropy.visualization.lupton_rgb" ["AsinhMapping";
            "LinearMapping"] ] |};
    {| line := 717; code :=
      block [
        Import "numpy" ["np"];
        Import "lsst" ["lsst"];
        Import "lsst.daf.persistence" ["Butler"];
        Import "lsst.geom" ["Box2I"; "Box2D"; "Point2I"; "Point2D";
            "Extent2I"; "Extent2D"];
        Import "lsst.afw.image" ["Exposure"; "Image"; "PARENT";
            "MultibandExposure"; "MultibandImage"];
        Import "lsst.afw.detection" ["MultibandFootprint"];
        Import "lsst.afw.image" ["MultibandExposure"] ] |};
    {| line := 743; code :=
      block [
        Import "desc_dc2_dm_data" ["desc_dc2_dm_data"];
        Simple ["butler"] [Call "desc_dc2_dm_data.get_butler" [Str "2.2i_dr6_wfd"]];
        Simple ["dataId"] [];
        Simple ["filters"] [];
        For ["f"] (Items ["u"; "g"; "r"; "i"; "z";
            "y"]) (Simple [] [Call "butler.get" [Str "deepCoadd_calexp";
            Var "dataId"; Var "f"]]);
        Simple ["coadds"] [];
        Simple ["coadds"] [Call "MultibandExposure.fromExposures" [Var "filters";
            Var "coadds"]] ] |};
    {| line := 766; code :=
      block [
        Simple ["norm"] [Call "scarlet.display.AsinhMapping" []];
        Simple ["rgb_patch"] [Call "scarlet.display.img_to_rgb" [Var "coadds";
            Var "norm"]] ] |};
    {| line := 776; code :=
      block [
        Simple [] [Call "plt.figure" []];
        Simple [] [Call "plt.imshow" [Var "rgb_patch"; Str "lower"]];
        Simple [] [Call "plt.xticks" []];
        Simple [] [Call "plt.yticks" []];
        Simple [] [Call "plt.show" []] ] |};
    {| line := 796; code :=
      Def "imshow_rgb" ["image"; "norm"; "figsize"; "cat"] (block [
        If [] (Simple ["norm"] [Call "scarlet.display.AsinhMapping" []]) Skip;
        Simple ["rgb_patch"] [Call "scarlet.display.img_to_rgb" [Var "image";
            Var "norm"]];
        Simple [] [Call "plt.figure" [Var "figsize"]];
        Simple [] [Call "plt.imshow" [Var "rgb_patch"; Str "lower"]];
        Simple [] [Call "plt.xticks" []];
        Simple [] [Call "plt.yticks" []];
        If [] (Simple [] [Call "plt.plot" [Var "cat"; Str "x"; Var "cat";
            Str "y"; Str "wx"]]) Skip;
        Simple [] [Call "plt.show" []];
        Skip ]) |};
    {| line := 834; code :=
      block [
        Simple ["n"] [];
        Simple ["sampleBBox"] [Call "Point2I" []; Call "Extent2I" [Var "n";
            Var "n"]; Call "Box2I" []];
        Simple ["subset"] [];
        For ["f"] (Dynamic "subset.filters") (Simple [] [Call "(...).getPsf" [];
            Call "(...).setPsf" []]) ] |};
    {| line := 851; code :=
      block [
        Simple ["images"] [];
        Simple [] [Call "imshow_rgb" [Var "images"]] ] |};
    {| line := 868; code :=
      block [
        Simple ["psfs"] [Call "Point2I" [];
            Call "subset.computePsfImage" []];
        Simple ["psf_norm"] [Call "scarlet.display.AsinhMapping" []];
        Simple [] [Call "imshow_rgb" [Var "psfs"; Var "psf_norm"]] ] |};
    {| line := 906; code :=
      block [
        Simple ["var"] [];
        Simple ["weights"] [] ] |};
    {| line := 934; code :=
      block [
        For ["f"] (Items ["u"; "g"; "r"; "i"; "z"; "y"]) (Simple [] []);
        Simple ["channels"] [];
        Simple ["model_psf"] [Call "scarlet.GaussianPSF" []];
        Simple ["frame"] [Call "scarlet.Frame" [Var "images";
            Var "model_psf"; Var "filters"]];
        Simple ["observation"] [Call "scarlet.ImagePSF" [Var "psfs"];
            Call "scarlet.Observation" [Var "images"; Var "filters";
            Var "weights"]] ] |};
    {| line := 959; code :=
      block [
        Simple [] [Call "print" []];
        Simple [] [Call "observation.match" [Var "frame"]];
        Simple [] [Call "imshow_rgb" [Var "observation"; Var "psf_norm"]] ] |};
    {| line := 987; code :=
      Def "makeCatalog" ["cube"; "lvl"; "wave"] (block [
        Simple ["detect_image"] [Call "np.sum" [Var "cube"]];
        If [Call "np.size" [Var "detect_image"]] (If [] (block [
          Simple ["wave_detect"] [Call "detect_image.mean" [];
              Call "Starlet" []];
          Simple ["wave_detect[]"] [];
          Simple ["detect"] [Call "Starlet" [Var "wave_detect"]] ]
            ) (Simple ["detect"] [Call "detect_image.mean" []])) (If [] (block [
          Simple ["wave_detect"] [Call "Starlet" [Var "detect_image"]];
          Simple ["detect"] [] ]) (Simple ["detect"] []));
        Simple ["bkg"] [Call "sep.Background" [Var "detect"]];
        Simple ["catalog"] [Call "sep.extract" [Var "detect"; Var "lvl";
            Var "bkg"]];
        If [Call "len" [Var "datas"]] (Simple ["bg_rms"] [Call "mad_wavelet" [Var "datas"]]) (block [
          Simple ["bg_rms"] [];
          For ["data"] (Dynamic "datas") (Simple [] [Call "mad_wavelet" [Var "data"];
              Call "bg_rms.append" []]) ]);
        Return [] ]) |};
    {| line := 1052; code :=
      block [
        Comment "cat = makeCatalog(images)";
        Simple ["cat"] [Call "open" [Str "cat.pkl"; Str "rb"];
            Call "pickle.load" []];
        Simple [] [Call "imshow_rgb" [Var "images"; Var "cat"]] ] |};
    {| line := 1084; code :=
      block [
        For ["c"] (Dynamic "cat") (Simple [] [Call "scarlet.ExtendedSource" [Var "frame";
            Var "c"; Str "y"; Var "c"; Str "x"; Var "observation"]]);
        Simple ["sources"] [];
        Simple [] [Call "scarlet.display.show_scene" [Var "sources";
            Var "norm"; Var "observation"]];
        Simple [] [Call "plt.show" []] ] |};
    {| line := 1100; code :=
      block [
        Simple [] [Call "scarlet.display.show_sources" [Var "sources";
            Var "norm"; Var "observation"]];
        Simple [] [Call "plt.show" []] ] |};
    {| line := 1128; code :=
      Invalid |};
    {| line := 1160; code :=
      Simple ["blend"] [Call "scarlet.Blend" [Var "sources";
          Var "observation"]] |};
    {| line := 1176; code :=
      block [
        Magic ["time"];
        Simple [] [Call "blend.fit" []];
        Simple [] [Call "len" [Var "blend"];
            Call "(...).format" [Var "blend"]; Call "print" []];
        Simple [] [Call "np.array" [Var "blend"]; Call "plt.plot" []];
        Simple [] [Call "plt.xlabel" [Str "Iteration"]];
        Simple [] [Call "plt.ylabel" [Str "log-Likelihood"]] ] |};
    {| line := 1198; code :=
      block [
        Simple [] [Call "scarlet.display.show_scene" [Var "sources";
            Var "norm"; Var "observation"]];
        Simple [] [Call "plt.show" []] ] |};
    {| line := 1220; code :=
      block [
        Simple ["fluxes"] [];
        For ["s"] (Dynamic "sources") (Simple [] [Call "scarlet.measure.flux" [Var "s"];
            Call "fluxes.append" []]);
        Simple [] [Call "np.array" [Var "fluxes"]; Call "plt.plot" []];
        Simple [] [Call "plt.show" []] ] |};
    {| line := 1234; code :=
      block [
        Simple [] [Call "scarlet.display.show_sources" [Var "sources";
            Var "norm"; Var "observation"]];
        Simple [] [Call "plt.show" []] ] |};
    {| line := 1261; code :=
      block [
        Import "scarlet" ["TabulatedSpectrum"; "FactorizedComponent";
            "init_extended_source"; "ImageMorphology"];
        Class "NewSourceMorphology" ["ImageMorphology"] (block [
          Def "__init__" ["self"; "frame"; "center"; "image"; "bbox";
              "shifting"] (block [
            Simple ["constraints"] [];
            If [] (Simple ["monotonic"] []) (If [] (Simple ["monotonic"] []) Skip);
            If [] (Simple [] [Call "MonotonicityConstraint" [Var "monotonic";
                Var "min_grad"]; Call "constraints.append" []]) Skip;
            Simple ["constraints"] [Call "MonotonicityConstraint" [];
                Call "SymmetryConstraint" [];
                Call "PositivityConstraint" [];
                Call "CenterOnConstraint" [];
                Call "NormalizationConstraint" [Str "max"]];
            Simple ["morph_constraint"] [Call "ConstraintChain" [Var "constraints"]];
            Simple ["image"] [Call "Parameter" [Var "image"; Str "image";
                Var "morph_constraint"]];
            Simple ["self.pixel_center"] [Call "np.round" [Var "center"];
                Call "(...).astype" [Str "int"]];
            If [] (Simple ["shift"] [Call "Parameter" [Var "center";
                Var "self"; Str "shift"]]) (Simple ["shift"] []);
            Simple ["self.shift"] [];
            Simple [] [Call "super" []; Call "(...).__init__" [Var "frame";
                Var "image"; Var "bbox"; Var "shift"]] ]);
          Def "center" ["self"] (If [] (Return []) (Return [])) ]);
        Class "NewExtendedSource" ["FactorizedComponent"] (Def "__init__" ["self";
            "model_frame"; "sky_coord"; "observations"; "coadd";
            "coadd_rms"; "thresh"; "compact"; "shifting"] (block [
          Simple ["spectrum"; "morph";
              "bbox"] [Call "init_extended_source" [Var "sky_coord";
              Var "model_frame"; Var "observations"; Var "coadd";
              Var "coadd_rms"; Var "thresh"; Var "compact"; Str "flat"]];
          Simple ["spectrum"] [Call "TabulatedSpectrum" [Var "model_frame";
              Var "spectrum"; Var "bbox"]];
          Simple ["center"] [Call "model_frame.get_pixel" [Var "sky_coord"]];
          Simple ["morphology"] [Call "NewSourceMorphology" [Var "model_frame";
              Var "center"; Var "morph"; Var "bbox"; Var "shifting"]];
          Simple ["self.center"] [];
          Simple [] [Call "super" [];
              Call "(...).__init__" [Var "model_frame"; Var "spectrum";
              Var "morphology"]] ])) ] |};
    {| line := 1423; code :=
      block [
        Simple ["cutout_size"] [];
        Simple ["cutout_extent"] [Call "lsst.geom.ExtentI" [Var "cutout_size";
            Var "cutout_size"]];
        Simple ["skymap"] [Call "butler.get" [Str "deepCoadd_skyMap"]];
        Simple ["radec"] [Call "lsst.geom.SpherePoint" [Var "lsst"]];
        Simple ["center"] [Call "skymap.findTract" [Var "radec"];
            Call "(...).getWcs" []; Call "(...).skyToPixel" [Var "radec"]];
        Simple ["bbox"] [Call "lsst.geom.Point2I" [Var "center";
            Var "cutout_size"; Var "center"; Var "cutout_size"];
            Call "lsst.geom.BoxI" [Var "cutout_extent"]];
        For ["band"] (Items ["u"; "g"; "r"; "i"; "z";
            "y"]) (Simple [] [Call "butler.get" [Str "deepCoadd_sub";
            Var "bbox"; Str "1,0"; Var "band"]]);
        Simple ["cutouts"] [];
        Simple ["coadds"] [Call "MultibandExposure.fromExposures" [Str "ugrizy";
            Var "cutouts"]];
        Simple ["psfs"] [Call "Point2I" [Var "center"; Var "cutout_size";
            Var "center"; Var "cutout_size"];
            Call "coadds.computePsfImage" []];
        Simple ["cube"] [];
        Simple ["var2"] [];
        Simple ["weights2"] [] ] |};
    {| line := 1458; code :=
      block [
        Simple ["cat"] [Call "open" [Str "cat2.pkl"; Str "rb"];
            Call "pickle.load" []];
        Simple [] [Call "imshow_rgb" [Var "cube"; Var "cat"]] ] |};
    {| line := 1479; code :=
      block [
        Simple ["channels"] [];
        Simple ["model_psf"] [];
        Simple ["frame"] [Call "scarlet.frame" [Str "..."]];
        Simple ["observation"] [Call "scarlet.Observation" [Str "..."];
            Call "(...).match" [Var "frame"]] ] |};
    {| line := 1508; code :=
      block [
        Simple [] [Call "scarlet.display.show_scene" [Var "sources";
            Var "norm"; Var "observation"]];
        Simple [] [Call "plt.show" []] ] |};
    {| line := 1534; code :=
      block [
        Simple ["blend"] [Call "scarlet.Blend" [Var "sources";
            Var "observation"]];
        Magic ["time"];
        Simple [] [Call "blend.fit" []];
        Simple [] [Call "len" [Var "blend"];
            Call "(...).format" [Var "blend"]; Call "print" []];
        Simple [] [Call "np.array" [Var "blend"]; Call "plt.plot" []];
        Simple [] [Call "plt.xlabel" [Str "Iteration"]];
        Simple [] [Call "plt.ylabel" [Str "log-Likelihood"]] ] |};
    {| line := 1548; code :=
      Skip |} ].








(** The two loops that close the data inventory (lines 562-567 and
    576-581), for the list they run over. *)
Definition taster_loop (source : string) : stmt :=
  For ["repo"] (Dynamic source)
    (Try (block [
            Simple ["taster"] [Call "stackclub.Taster" [Var "repo"]];
            Simple [] [Call "taster.report" []] ])
         (Simple [] [Call "print" [Str "Taster failed to explore repo ";
                                   Var "repo"]])).


(** ** What can be read off the text *)


(** The calls written in the statement, in textual order, function
    bodies included, comments left out. *)
Fixpoint calls_in (s : stmt) : list call :=
  match s with
  | Seq s1 s2 => calls_in s1 ++ calls_in s2
  | Simple _ cs | Return cs => cs
  | For _ _ body | Def _ _ body | Class _ _ body => calls_in body
  | If test body orelse => test ++ calls_in body ++ calls_in orelse
  | Try body handler => calls_in body ++ calls_in handler
  | _ => []
  end%list.

(** The shell commands written in the statement. *)
Fixpoint commands_in (s : stmt) : list (list string) :=
  match s with
  | Seq s1 s2 => commands_in s1 ++ commands_in s2
  | Shell _ cmds => cmds
  | For _ _ body | Def _ _ body | Class _ _ body => commands_in body
  | If _ body orelse => commands_in body ++ commands_in orelse
  | Try body handler => commands_in body ++ commands_in handler
  | _ => []
  end%list.


(** The names a statement binds in the scope it runs in: a function or
    class binds its own name, not what its body binds. *)
Fixpoint bound_names (s : stmt) : list string :=
  match s with
  | Seq s1 s2 => bound_names s1 ++ bound_names s2
  | Simple defs _ | Shell defs _ => defs
  | Import _ binds => binds
  | For targets _ body => targets ++ bound_names body
  | If _ body orelse => bound_names body ++ bound_names orelse
  | Try body handler => bound_names body ++ bound_names handler
  | Def name _ _ | Class name _ _ => [name]
  | _ => []
  end%list.


(** ** Calls that write to disk *)

Definition ends_with (suffix s : string) : bool :=
  String.eqb suffix
    (substring (String.length s - String.length suffix)
               (String.length suffix) s).

(** The entry points of the imported libraries that write a file:
    [writeFits] (lsst.afw), [dump] (pickle), [savefig] (matplotlib),
    [save], [savez], [savetxt] (numpy), [to_csv] (pandas), [put]
    (butler), [write] and [writeto] (astropy). *)
Definition writers : list string :=
  [".writeFits"; ".dump"; ".savefig"; ".save"; ".savez"; ".savetxt";
   ".to_csv"; ".put"; ".write"; ".writeto"].

(** The mode of an [open] call: its second string, ["r"] when absent. *)
Definition open_mode (c : call) : string :=
  match args c with
  | _ :: Str mode :: _ => mode
  | _ => "r"
  end.

Definition write_mode (mode : string) : bool :=
  existsb (fun m => Inventory.contains m mode) ["w"; "a"; "x"; "+"].

Definition writes_disk (c : call) : bool :=
  existsb (fun w => ends_with w (callee c)) writers
  || (String.eqb (callee c) "open" && write_mode (open_mode c)).

(** A shell command that installs a package: [python setup.py develop]
    or [install], [pip install]. *)
Definition installs (argv : list string) : bool :=
  match argv with
  | "python" :: "setup.py" :: rest =>
      existsb (fun w => String.eqb w "develop" || String.eqb w "install") rest
  | "pip" :: "install" :: _ => true
  | _ => false
  end.





(** ** Running a cell *)

(** What running leaves behind: the calls made, each with whether it
    raised, and the commands run; and what was put on disk. *)
Inductive event : Type :=
| Called (c : call) (raised : bool)
| Ran (argv : list string).

Inductive artefact : Type :=
| Written (by_call : call)
| Installed (by_command : list string).

Record state : Type := { events : list event; disk : list artefact }.

(** The libraries and the data, as far as control depends on them: whether
    the call made after [n] events raises, how long the sequence is that
    a loop entered after [n] events runs over, which way a test goes. *)
Record oracle : Type := {
  raises : nat -> call -> bool;
  iterations : nat -> nat;
  truth : nat -> bool
}.

Inductive outcome : Type :=
| Normal
| Raised (e : exn).

Definition log (st : state) (e : event) : state :=
  {| events := (events st ++ [e])%list; disk := disk st |}.

Definition put (st : state) (a : list artefact) : state :=
  {| events := events st; disk := (disk st ++ a)%list |}.

Fixpoint run_calls (o : oracle) (cs : list call) (st : state)
  : outcome * state :=
  match cs with
  | [] => (Normal, st)
  | c :: cs' =>
      if raises o (length (events st)) c
      then (Raised (LibraryError (callee c)), log st (Called c true))
      else run_calls o cs'
             (put (log st (Called c false))
                  (if writes_disk c then [Written c] else []))
  end.

Fixpoint run_commands (cmds : list (list string)) (st : state) : state :=
  match cmds with
  | [] => st
  | argv :: cmds' =>
      run_commands cmds'
        (put (log st (Ran argv))
             (if installs argv then [Installed argv] else []))
  end.

Definition count (o : oracle) (it : iterable) (st : state) : nat :=
  match it with
  | Items xs => length xs
  | Dynamic _ => iterations o (length (events st))
  end.

Section Loop.
Variable body : state -> outcome * state.

Fixpoint loop (n : nat) (st : state) : outcome * state :=
  match n with
  | 0 => (Normal, st)
  | S n' =>
      match body st with
      | (Normal, st') => loop n' st'
      | raised => raised
      end
  end.
End Loop.

(** A definition binds a name and runs nothing of its body; the body of
    a class runs when the class is defined; a shell escape never raises,
    whatever the command does; a bare [except] catches every exception;
    a cell that is not valid Python raises before anything runs. *)
Fixpoint exec (o : oracle) (s : stmt) (st : state) : outcome * state :=
  match s with
  | Skip | Comment _ | Magic _ | Import _ _ | Def _ _ _ => (Normal, st)
  | Invalid => (Raised SyntaxError, st)
  | Seq s1 s2 =>
      match exec o s1 st with
      | (Normal, st') => exec o s2 st'
      | raised => raised
      end
  | Simple _ cs | Return cs => run_calls o cs st
  | Shell _ cmds => (Normal, run_commands cmds st)
  | For _ it body => loop (exec o body) (count o it st) st
  | If test body orelse =>
      match run_calls o test st with
      | (Normal, st') =>
          if truth o (length (events st'))
          then exec o body st' else exec o orelse st'
      | raised => raised
      end
  | Try body handler =>
      match exec o body st with
      | (Raised _, st') => exec o handler st'
      | normal => normal
      end
  | Class _ _ body => exec o body st
  end.

(** Running the cells of a notebook from the top stops at the first cell
    that raises. *)
Fixpoint run_cells (o : oracle) (cells : notebook) (st : state)
  : outcome * state :=
  match cells with
  | [] => (Normal, st)
  | c :: cells' =>
      match exec o (code c) st with
      | (Normal, st') => run_cells o cells' st'
      | raised => raised
      end
  end.

Definition start : state := {| events := []; disk := [] |}.

(** ** What the specification says of a cell *)

(** The events a run of [s] from [st] adds. *)
Definition new_events (o : oracle) (s : stmt) (st : state) : list event :=
  skipn (length (events st)) (events (snd (exec o s st))).





(** ** The stages of the deblender notebook *)













(** ** Sample libraries *)




End Notebook.

(* ================================================================== *)
(** * The scarlet tutorial: the source classes of "To go further" *)

Module Sources.

(** What [monotonic] can hold: [True], [False], [None] or one of the
    strings ['flat'], ['angle'], ['nearest']. *)
Inductive mono : Type :=
| MTrue
| MFalse
| MNone
| MStr (s : string).

(** scarlet and numpy, as black boxes that return or raise. *)
Class Libraries : Type := {
  frame : Type;
  coord : Type;         (* a sky coordinate *)
  pixel : Type;         (* a pixel position *)
  observations : Type;
  array : Type;
  box : Type;           (* a [scarlet.Box] *)
  spectrum : Type;      (* a [TabulatedSpectrum] *)
  constraint : Type;
  chain : Type;         (* a [ConstraintChain] *)
  parameter : Type;
  image_morphology : Type;      (* the state [ImageMorphology] sets up *)
  factorized_component : Type;  (* the state [FactorizedComponent] sets up *)
  (** [init_extended_source(sky_coord, model_frame, observations, coadd,
      coadd_rms=, thresh=, compact=, symmetric=, monotonic=, min_grad=)] *)
  init_extended_source :
    coord -> frame -> observations -> option array -> option Q -> Q ->
    bool -> bool -> string -> Z -> result (array * array * box);
  (** [TabulatedSpectrum(model_frame, spectrum, bbox=)] *)
  TabulatedSpectrum : frame -> array -> box -> result spectrum;
  (** [model_frame.get_pixel(sky_coord)] *)
  get_pixel : frame -> coord -> result pixel;
  (** [bbox[0]] and [bbox[1:]] *)
  box_first : box -> result box;
  box_rest : box -> result box;
  (** [np.round(center).astype("int")] *)
  round_int : pixel -> result pixel;
  (** [center - self.pixel_center] and [self.pixel_center + self.shift] *)
  pixel_sub : pixel -> pixel -> pixel;
  pixel_add : pixel -> parameter -> pixel;
  (** [super().__init__(frame, image, bbox=bbox, shift=shift)] of
      [ImageMorphology] *)
  ImageMorphology_init :
    frame -> parameter -> option box -> option parameter ->
    result image_morphology
}.

Section Sources.

Context {L : Libraries}.

(** An instance of [NewSourceMorphology]. *)
Record morphology : Type := {
  base : image_morphology;
  pixel_center : pixel;
  shift : option parameter
}.

(** The class [Parameter], with its two uses in the cell:
    [Parameter(image, name="image", step=1e-2, constraint=c)] and
    [Parameter(v, name="shift", step=1e-1)]. *)
Record Parameter_class : Type := {
  image_parameter : array -> string -> Q -> chain -> result parameter;
  shift_parameter : pixel -> string -> Q -> result parameter
}.

(** The global names the two constructors read that the cell does not
    import: the notebook takes from scarlet only [TabulatedSpectrum],
    [FactorizedComponent], [init_extended_source] and
    [ImageMorphology] (line 1261). *)
Record globals : Type := {
  g_MonotonicityConstraint : option (option (mono * Q) -> result constraint);
  g_SymmetryConstraint : option (result constraint);
  g_PositivityConstraint : option (result constraint);
  g_CenterOnConstraint : option (result constraint);
  g_NormalizationConstraint : option (string -> result constraint);
  g_ConstraintChain : option (list constraint -> result chain);
  g_Parameter : option Parameter_class;
  g_min_grad : option Q
}.

Definition notebook_globals : globals :=
  {| g_MonotonicityConstraint := None;
     g_SymmetryConstraint := None;
     g_PositivityConstraint := None;
     g_CenterOnConstraint := None;
     g_NormalizationConstraint := None;
     g_ConstraintChain := None;
     g_Parameter := None;
     g_min_grad := None |}.

(** Lines 1294-1330, the body of [NewSourceMorphology.__init__], for
    the binding the local [monotonic] has on entry. *)
Definition morphology_body (g : globals) (entry_monotonic : option mono)
           (frame_ : frame) (center : pixel) (image : array)
           (bbox : option box) (shifting : bool) : M morphology :=
  let constraints : list constraint := [] in
  (* if monotonic is True: ... elif monotonic is False: ... *)
  m <- lookup "monotonic" entry_monotonic ;;
  let monotonic :=
    match m with
    | MTrue => MStr "angle"
    | MFalse => MNone
    | other => other
    end in
  (* if monotonic is not None: constraints.append(...) *)
  constraints <-
    match monotonic with
    | MNone => ret constraints
    | _ =>
        MC <- lookup "MonotonicityConstraint" (g_MonotonicityConstraint g) ;;
        min_grad <- lookup "min_grad" (g_min_grad g) ;;
        c <- call "MonotonicityConstraint" (MC (Some (monotonic, min_grad))) ;;
        ret (constraints ++ [c])%list
    end ;;
  (* constraints += [...] *)
  MC <- lookup "MonotonicityConstraint" (g_MonotonicityConstraint g) ;;
  c1 <- call "MonotonicityConstraint" (MC None) ;;
  SC <- lookup "SymmetryConstraint" (g_SymmetryConstraint g) ;;
  c2 <- call "SymmetryConstraint" SC ;;
  PC <- lookup "PositivityConstraint" (g_PositivityConstraint g) ;;
  c3 <- call "PositivityConstraint" PC ;;
  CC <- lookup "CenterOnConstraint" (g_CenterOnConstraint g) ;;
  c4 <- call "CenterOnConstraint" CC ;;
  NC <- lookup "NormalizationConstraint" (g_NormalizationConstraint g) ;;
  c5 <- call "NormalizationConstraint" (NC "max") ;;
  let constraints := (constraints ++ [c1; c2; c3; c4; c5])%list in
  Chain <- lookup "ConstraintChain" (g_ConstraintChain g) ;;
  morph_constraint <- call "ConstraintChain" (Chain constraints) ;;
  P <- lookup "Parameter" (g_Parameter g) ;;
  image <- call "Parameter"
             (image_parameter P image "image" (1 # 100)%Q morph_constraint) ;;
  pixel_center_ <- call "np.round" (round_int center) ;;
  shift_ <-
    (if shifting then
       P' <- lookup "Parameter" (g_Parameter g) ;;
       s <- call "Parameter"
              (shift_parameter P' (pixel_sub center pixel_center_)
                               "shift" (1 # 10)%Q) ;;
       ret (Some s)
     else ret None) ;;
  base_ <- call "ImageMorphology.__init__"
             (ImageMorphology_init frame_ image bbox shift_) ;;
  ret {| base := base_; pixel_center := pixel_center_; shift := shift_ |}.

(** Lines 1264-1330.  [monotonic] is assigned in the body and is not
    among the parameters ([self], [frame], [center], [image], [bbox],
    [shifting]): it is a local that holds nothing on entry, and
    reading it raises UnboundLocalError, the NameError of locals. *)
Definition NewSourceMorphology (g : globals) (frame_ : frame)
           (center : pixel) (image : array) (bbox : option box)
           (shifting : bool) : M morphology :=
  morphology_body g None frame_ center image bbox shifting.

(** Lines 1332-1337, the property [center]. *)
Definition center_of (self : morphology) : pixel :=
  match shift self with
  | Some s => pixel_add (pixel_center self) s
  | None => pixel_center self
  end.

(** An instance of [NewExtendedSource]. *)
Record extended_source (C : Type) : Type := {
  component : C;
  source_center : pixel
}.

(** Lines 1341-1405, [NewExtendedSource.__init__];
    [FactorizedComponent_init] is
    [super().__init__(model_frame, spectrum, morphology)]. *)
Definition NewExtendedSource (g : globals)
           (FactorizedComponent_init :
              frame -> spectrum -> morphology -> result factorized_component)
           (model_frame : frame) (sky_coord : coord)
           (obs : observations) (coadd : option array)
           (coadd_rms : option Q) (thresh : Q) (compact shifting : bool)
  : M (extended_source factorized_component) :=
  init <- call "init_extended_source"
            (init_extended_source sky_coord model_frame obs coadd
               coadd_rms thresh compact true "flat" 0%Z) ;;
  let '(spectrum_, morph, bbox) := init in
  b0 <- call "Box.__getitem__" (box_first bbox) ;;
  spectrum_ <- call "TabulatedSpectrum"
                 (TabulatedSpectrum model_frame spectrum_ b0) ;;
  center <- call "get_pixel" (get_pixel model_frame sky_coord) ;;
  b1 <- call "Box.__getitem__" (box_rest bbox) ;;
  morphology_ <- NewSourceMorphology g model_frame center morph (Some b1)
                   shifting ;;
  let self_center := center_of morphology_ in
  comp <- call "FactorizedComponent.__init__"
            (FactorizedComponent_init model_frame spectrum_ morphology_) ;;
  ret {| component := comp; source_center := self_center |}.

(** The defaults of the signature of [NewExtendedSource]. *)
Definition default_thresh : Q := 1%Q.

(** The names of the constructors' bodies that the cell neither
    imports nor defines. *)
Definition missing_names : list string :=
  ["MonotonicityConstraint"; "SymmetryConstraint"; "PositivityConstraint";
   "CenterOnConstraint"; "NormalizationConstraint"; "ConstraintChain";
   "Parameter"; "min_grad"].

End Sources.

End Sources.

Module ToySources.

Import Sources.

(** Positions are pairs of integers, arrays are lists, a box is the
    list of its axis lengths. *)
#[export] Instance toy_libraries : Libraries := {|
  frame := list nat;
  coord := Z * Z;
  pixel := Z * Z;
  observations := list (list Z);
  array := list Z;
  box := list nat;
  spectrum := list Z;
  constraint := string;
  chain := list string;
  parameter := Z * Z;
  image_morphology := list Z;
  factorized_component := list Z;
  init_extended_source := fun _ fr _ _ _ _ _ _ _ _ => Ok ([1%Z], [2%Z], fr);
  TabulatedSpectrum := fun _ sp _ => Ok sp;
  get_pixel := fun _ c => Ok c;
  box_first := fun b => match b with
                        | [] => Raise IndexError
                        | n :: _ => Ok [n]
                        end;
  box_rest := fun b => Ok (tl b);
  round_int := fun p => Ok p;
  pixel_sub := fun p q => (fst p - fst q, snd p - snd q)%Z;
  pixel_add := fun p q => (fst p + fst q, snd p + snd q)%Z;
  ImageMorphology_init := fun _ _ _ _ => Ok []
|}.

(** Six channels of 180 by 180 pixels. *)
Definition model_frame : list nat := [6; 180; 180].

Definition toy_FactorizedComponent_init
  : list nat -> list Z -> morphology (L := toy_libraries) -> result (list Z) :=
  fun _ sp _ => Ok sp.

End ToySources.

(* ================================================================== *)
(** * Runs of a notebook against its text *)

Module Runs.

Import Notebook.

(** The calls and the commands written in the cells of a notebook. *)
Definition calls_of (nb : notebook) : list call :=
  flat_map (fun c => calls_in (code c)) nb.

Definition commands_of (nb : notebook) : list (list string) :=
  flat_map (fun c => commands_in (code c)) nb.

(** The cells that start above a line of the source file. *)
Definition cells_above (l : nat) (nb : notebook) : notebook :=
  filter (fun c => Nat.ltb (line c) l) nb.

(** The events a run [r] from [st] added. *)
Definition added (st : state) (r : outcome * state) : list event :=
  skipn (length (events st)) (events (snd r)).

(** An event is a call or a command of the given text. *)
Definition from_text (cs : list call) (ms : list (list string))
           (e : event) : Prop :=
  match e with
  | Called c _ => In c cs
  | Ran argv => In argv ms
  end.

(** The run [r] from [st] kept the events of [st] and added events
    that all satisfy [P]. *)
Definition adds (P : event -> Prop) (st : state) (r : outcome * state)
  : Prop :=
  exists evs, events (snd r) = (events st ++ evs)%list /\ Forall P evs.

(** A call of [name] was made; a call of [name] returned. *)
Definition made (name : string) (e : event) : bool :=
  match e with
  | Called c _ => String.eqb (callee c) name
  | Ran _ => false
  end.

Definition returned (name : string) (e : event) : bool :=
  match e with
  | Called c false => String.eqb (callee c) name
  | _ => false
  end.

(** As [all_fine], except that [taster.report] raises on every
    repository. *)
Definition report_fails : oracle :=
  {| raises := fun _ c => String.eqb (callee c) "taster.report";
     iterations := fun _ => 2;
     truth := fun _ => true |}.

End Runs.

(* ================================================================== *)
(** * Facts about [makeCatalog] *)

Module ScarletFacts.

Import Scarlet.

Section MakeCatalog.

Context {L : Libraries}.





Lemma rms_loop_returns (g : globals) (mw : array -> result rms)
      (ds : list data) (acc : list rms) (t : trace) :
  g_mad_wavelet g = Some mw ->
  (forall d, In d ds -> exists r, mw (images d) = Ok r) ->
  exists v, fst (rms_loop g ds acc t) = Ok v.
Proof.
  intros Hmw. revert acc t.
  induction ds as [| d ds IH]; intros acc t Hok; simpl.
  - eexists. reflexivity.
  - unfold bind, lookup, call. rewrite Hmw.
    destruct (Hok d (or_introl eq_refl)) as (r & Hr). rewrite Hr.
    apply IH. intros d' Hd'. apply Hok. right. exact Hd'.
Qed.

Lemma background_rms_returns (g : globals) (datas : list data)
      (mw : array -> result rms) (t : trace) :
  g_datas g = Some datas ->
  g_mad_wavelet g = Some mw ->
  (forall d, In d datas -> exists r, mw (images d) = Ok r) ->
  exists v, fst (background_rms g t) = Ok v.
Proof.
  intros Hd Hmw Hok. unfold background_rms, bind, lookup.
  rewrite Hd. destruct (Nat.eqb (length datas) 1) eqn:E.
  - rewrite Hmw. destruct datas as [| d0 rest]; [discriminate E |].
    unfold call, ret.
    destruct (Hok d0 (or_introl eq_refl)) as (r & Hr). rewrite Hr.
    eexists. reflexivity.
  - eapply rms_loop_returns; eauto.
Qed.

(** With the three names bound and every library call returning,
    [makeCatalog] returns the catalog of [sep.extract] on the detection
    image, at the threshold [lvl], with the global rms of the
    background as the error. *)
Lemma makeCatalog_returns (g : globals) (sep : sep_module)
      (datas : list data) (mw : array -> result rms)
      (cube : array) (lvl : Z) (wave : bool) (t t1 : trace)
      (detect : array) (bkg : background) (c : catalog) :
  g_sep g = Some sep ->
  g_datas g = Some datas ->
  g_mad_wavelet g = Some mw ->
  detection_image cube wave t = (Ok detect, t1) ->
  Background sep detect = Ok bkg ->
  extract sep detect lvl (globalrms sep bkg) = Ok c ->
  (forall d, In d datas -> exists r, mw (images d) = Ok r) ->
  fst (makeCatalog g cube lvl wave t) = Ok (PCatalog c).
Proof.
  intros Hs Hd Hmw Hdet Hb He Hok.
  unfold makeCatalog, bind. rewrite Hdet.
  unfold lookup, call. rewrite Hs, Hb, He.
  destruct (background_rms_returns g datas mw
              ((t1 ++ ["sep.Background"]) ++ ["sep.extract"])%list
              Hd Hmw Hok) as (v & Hv).
  destruct (background_rms g _) as [[b | e] t2]; simpl in Hv.
  - reflexivity.
  - discriminate Hv.
Qed.

End MakeCatalog.

Import Toy Notebook.


(** C2 at the call the tutorial comments out, [makeCatalog(images)]
    with the defaults [lvl=3], [wave=True]: the detection image is
    computed, then the body raises NameError at [sep.Background]; the
    catalog [sep.extract] would give for that detection image is not
    returned.  With the names bound it is. *)
Theorem makeCatalog_tutorial_call_fails :
  run (makeCatalog notebook_globals images_cube 3 true)
  = (Raise (NameError "sep"), ["np.sum"; "Starlet"; "getitem"]) /\
  (exists detect bkg,
      fst (run (detection_image images_cube true)) = Ok detect /\
      Background toy_sep detect = Ok bkg /\
      extract toy_sep detect 3%Z (globalrms toy_sep bkg) = Ok [(3, 1)%Z]) /\
  fst (run (makeCatalog bound_globals images_cube 3 true))
  = Ok (PCatalog [(3, 1)%Z]).
Proof.
  split; [reflexivity |]. split; [| reflexivity].
  exists {| shape := [180; 180]; label := "images" |},
         {| shape := [180; 180]; label := "images" |}.
  split; [reflexivity |]. split; reflexivity.
Qed.



End ScarletFacts.

(* ================================================================== *)
(** * Facts about [showRGB] *)

Module DeblenderFacts.

Import Deblender.

Section ShowRGB.

Context {L : Libraries}.

(** ** The pixel buffers are only read *)

Lemma keeps_heap_wret {A} (a : A) : keeps_heap (wret a).
Proof. intro w. reflexivity. Qed.

Lemma keeps_heap_lift {A} (r : result A) : keeps_heap (lift r).
Proof. intro w. reflexivity. Qed.

Lemma keeps_heap_array_of (s : Image) : keeps_heap (array_of s).
Proof. intro w. reflexivity. Qed.

Lemma keeps_heap_new_figure_axes figsize : keeps_heap (new_figure_axes figsize).
Proof. intro w. reflexivity. Qed.

Lemma keeps_heap_draw ax a : keeps_heap (draw ax a).
Proof. intro w. reflexivity. Qed.

Lemma keeps_heap_wbind {A B} (m : W A) (k : A -> W B) :
  keeps_heap m -> (forall a, keeps_heap (k a)) -> keeps_heap (wbind m k).
Proof.
  intros Hm Hk w. unfold wbind.
  specialize (Hm w). destruct (m w) as [[a | e] w1]; simpl in *.
  - rewrite Hk. exact Hm.
  - exact Hm.
Qed.

Lemma keeps_heap_plot_peaks ax peaks : keeps_heap (plot_peaks ax peaks).
Proof.
  induction peaks as [| [ix iy] rest IH]; simpl.
  - apply keeps_heap_wret.
  - apply keeps_heap_wbind; [apply keeps_heap_draw | intros _; exact IH].
Qed.

Create HintDb heap.
#[local] Hint Resolve keeps_heap_wret keeps_heap_lift keeps_heap_array_of
  keeps_heap_new_figure_axes keeps_heap_draw keeps_heap_plot_peaks : heap.



(** ** The one call into astropy *)

(** [compose_rgb] leaves the world alone and is the call
    [make_lupton_rgb(image_r=image[bgr[2]].array,
                     image_g=image[bgr[1]].array,
                     image_b=image[bgr[0]].array, stretch, Q)]. *)
Lemma compose_rgb_spec image bgr stretch Q w :
  compose_rgb image bgr stretch Q w =
  (match band image bgr 2 w with
   | Ok image_r =>
       match band image bgr 1 w with
       | Ok image_g =>
           match band image bgr 0 w with
           | Ok image_b => make_lupton_rgb image_r image_g image_b stretch Q
           | Raise e => Raise e
           end
       | Raise e => Raise e
       end
   | Raise e => Raise e
   end, w).
Proof.
  unfold compose_rgb, band, wbind, lift, array_of.
  destruct (index bgr 2) as [f2 | e]; [| reflexivity].
  destruct (getitem image f2) as [s2 | e]; [| reflexivity].
  destruct (index bgr 1) as [f1 | e]; [| reflexivity].
  destruct (getitem image f1) as [s1 | e]; [| reflexivity].
  destruct (index bgr 0) as [f0 | e]; [| reflexivity].
  destruct (getitem image f0) as [s0 | e]; reflexivity.
Qed.



(** ** What is drawn *)


(** When the composition fails nothing is drawn and no figure is made. *)
Lemma showRGB_raises image bgr ax fp figsize stretch Q w e :
  fst (compose_rgb image (effective_bgr image bgr) stretch Q w) = Raise e ->
  showRGB image bgr ax fp figsize stretch Q w = (Raise e, w).
Proof.
  intros H. unfold showRGB, wbind.
  rewrite compose_rgb_spec in *. simpl in H. rewrite H. reflexivity.
Qed.




End ShowRGB.

Import ToyDeblender.


End DeblenderFacts.

(* ================================================================== *)
(** * Facts about the weights *)

Module WeightsFacts.

Import Weights.

Section Weights.

Context {F : Type} (one : F) (div : F -> F -> F) (pow : F -> Z -> F).

Lemma pixel_map3 (f : F -> F) (a : cube) (b y x : nat) :
  pixel (map3 f a) b y x = option_map f (pixel a b y x).
Proof.
  unfold pixel, map3.
  rewrite nth_error_map.
  destruct (nth_error a b) as [plane |]; simpl; [| reflexivity].
  rewrite nth_error_map.
  destruct (nth_error plane y) as [row |]; simpl; [| reflexivity].
  apply nth_error_map.
Qed.

Lemma pixel_weights (var : cube) (b y x : nat) :
  pixel (weights one div pow var) b y x =
  option_map (fun v => div one (pow v 2%Z)) (pixel var b y x).
Proof.
  unfold weights, rdiv, power.
  rewrite !pixel_map3.
  destruct (pixel var b y x); reflexivity.
Qed.

End Weights.

(** C9.  The weights handed to [scarlet.Observation] are, pixel by
    pixel, one over the square of the variance: whatever the arithmetic
    of the pixel type, [weights[b][y][x] = 1 / (var[b][y][x] ** 2)], with
    the shape of the variance cube; over the rationals a variance of 2
    gets the weight 1/4, not the inverse variance 1/2. *)
Theorem weights_inverse_squared_variance :
  (forall (F : Type) (one : F) (div : F -> F -> F) (pow : F -> Z -> F)
          (I P : Type) (images : I) (image_psf : P) (filters : list string)
          (var : cube) (b y x : nat),
      obs_weights (observation one div pow images image_psf filters var) =
      weights one div pow var /\
      pixel (weights one div pow var) b y x =
      option_map (fun v => div one (pow v 2%Z)) (pixel var b y x)) /\
  (exists v w,
      pixel sample_variance 0 0 0 = Some v /\
      pixel (weightsQ sample_variance) 0 0 0 = Some w /\
      (v == 2)%Q /\ (w == 1 # 4)%Q /\ ~ (w == 1 / v)%Q).
Proof.
  split.
  - intros. split; [reflexivity | apply pixel_weights].
  - exists 2%Q, (1 / (2 ^ 2))%Q.
    split; [reflexivity |]. split; [reflexivity |].
    split; [reflexivity |]. split; [reflexivity |].
    intros H. vm_compute in H. discriminate H.
Qed.

End WeightsFacts.

(* ================================================================== *)
(** * Facts about the repository listings *)

Module InventoryFacts.

Import Inventory.

(** ** The order on lines *)

Lemma ascii_compare_refl (a : ascii) : Ascii.compare a a = Eq.
Proof. unfold Ascii.compare. apply N.compare_refl. Qed.

Lemma ascii_compare_lt_trans (a b c : ascii) :
  Ascii.compare a b = Lt -> Ascii.compare b c = Lt -> Ascii.compare a c = Lt.
Proof.
  unfold Ascii.compare. rewrite !N.compare_lt_iff. apply N.lt_trans.
Qed.

Lemma str_compare_refl (s : string) : String.compare s s = Eq.
Proof.
  induction s as [| a s IH]; simpl; [reflexivity |].
  rewrite ascii_compare_refl. exact IH.
Qed.

Lemma str_lt_irrefl (s : string) : ~ str_lt s s.
Proof. unfold str_lt. rewrite str_compare_refl. discriminate. Qed.

Lemma str_lt_trans (a b c : string) : str_lt a b -> str_lt b c -> str_lt a c.
Proof.
  unfold str_lt. revert b c.
  induction a as [| x a IH]; intros [| y b] [| z c]; simpl; try discriminate; auto.
  destruct (Ascii.compare x y) eqn:Exy; try discriminate.
  - apply Ascii.compare_eq_iff in Exy. subst y.
    destruct (Ascii.compare x z) eqn:Exz; try discriminate; auto.
    apply IH.
  - intros _.
    destruct (Ascii.compare y z) eqn:Eyz; try discriminate.
    + apply Ascii.compare_eq_iff in Eyz. subst z. rewrite Exy. reflexivity.
    + intros _. rewrite (ascii_compare_lt_trans _ _ _ Exy Eyz). reflexivity.
Qed.

Lemma str_compare_gt_lt (a b : string) :
  String.compare a b = Gt -> str_lt b a.
Proof.
  unfold str_lt. intros H. rewrite String.compare_antisym, H. reflexivity.
Qed.

(** ** [np.unique] *)

Lemma insert_unique_In (x y : string) (l : list string) :
  In y (insert_unique x l) <-> y = x \/ In y l.
Proof.
  induction l as [| z l IH]; simpl.
  - intuition.
  - destruct (String.compare x z) eqn:E; simpl.
    + apply String.compare_eq_iff in E. subst z. intuition.
    + intuition.
    + rewrite IH. intuition.
Qed.

Lemma insert_unique_sorted (x : string) (l : list string) :
  Sorted str_lt l -> Sorted str_lt (insert_unique x l).
Proof.
  induction l as [| z l IH]; simpl; intros Hs.
  - repeat constructor.
  - destruct (String.compare x z) eqn:E.
    + exact Hs.
    + constructor; [exact Hs | constructor; exact E].
    + inversion Hs as [| ? ? Hl Hhd]; subst.
      constructor; [apply IH; exact Hl |].
      destruct l as [| u l']; simpl.
      * constructor. apply str_compare_gt_lt. exact E.
      * destruct (String.compare x u); constructor;
          try (apply str_compare_gt_lt; exact E);
          inversion Hhd; assumption.
Qed.

Lemma np_unique_In (y : string) (l : list string) :
  In y (np_unique l) <-> In y l.
Proof.
  induction l as [| x l IH]; simpl; [reflexivity |].
  unfold np_unique in *. simpl. rewrite insert_unique_In, IH. intuition.
Qed.

Lemma np_unique_sorted (l : list string) : StronglySorted str_lt (np_unique l).
Proof.
  apply Sorted_StronglySorted; [exact str_lt_trans |].
  induction l as [| x l IH]; simpl; [constructor |].
  apply insert_unique_sorted. exact IH.
Qed.


(** ** The filters of the pipelines keep the lines *)

Lemma insert_sorted_In (x y : string) (l : list string) :
  In y (insert_sorted x l) <-> y = x \/ In y l.
Proof.
  induction l as [| z l IH]; simpl.
  - intuition.
  - destruct (String.leb x z); simpl; [intuition |].
    rewrite IH. intuition.
Qed.

Lemma sort_In (y : string) (l : list string) : In y (sort l) <-> In y l.
Proof.
  induction l as [| x l IH]; simpl; [reflexivity |].
  unfold sort in *. simpl. rewrite insert_sorted_In, IH. intuition.
Qed.

Lemma uniq_In (y : string) (l : list string) : In y (uniq l) <-> In y l.
Proof.
  induction l as [| x l IH]; [reflexivity |].
  destruct l as [| z l'].
  - reflexivity.
  - change (uniq (x :: z :: l'))
      with (if String.eqb x z then uniq (z :: l') else x :: uniq (z :: l')).
    destruct (String.eqb x z) eqn:E.
    + apply String.eqb_eq in E. subst z. rewrite IH. simpl. intuition.
    + simpl in *. rewrite IH. intuition.
Qed.

(** ** [cut] on a rendered path *)

Lemma split_on_no_slash (s : string) :
  no_slash s = true -> split_on "/" s = [s].
Proof.
  induction s as [| a s IH]; simpl; [reflexivity |].
  intros H. apply andb_prop in H. destruct H as [Ha Hs].
  destruct (Ascii.eqb a "/"); [discriminate |].
  rewrite (IH Hs). reflexivity.
Qed.

Lemma split_on_app_slash (f rest : string) :
  no_slash f = true ->
  split_on "/" (f ++ String "/" rest) = f :: split_on "/" rest.
Proof.
  induction f as [| a f IH]; simpl; [reflexivity |].
  intros H. apply andb_prop in H. destruct H as [Ha Hf].
  destruct (Ascii.eqb a "/"); [discriminate |].
  rewrite (IH Hf). reflexivity.
Qed.

Lemma split_join (fields : list string) :
  fields <> [] ->
  Forall (fun name => no_slash name = true) fields ->
  split_on "/" (join_with "/" fields) = fields.
Proof.
  induction fields as [| f fs IH]; [congruence |].
  intros _ Hall. inversion Hall as [| ? ? Hf Hfs]; subst.
  destruct fs as [| g fs'].
  - simpl. apply split_on_no_slash. exact Hf.
  - change (join_with "/" (f :: g :: fs'))
      with (f ++ String "/" (join_with "/" (g :: fs'))).
    rewrite split_on_app_slash by exact Hf.
    rewrite IH; [reflexivity | discriminate | exact Hfs].
Qed.

Lemma cut_rendered (n : nat) (p : path) :
  Forall (fun name => no_slash name = true) p ->
  join_with "/" (firstn (S n) (split_on "/" (render p))) = render (firstn n p).
Proof.
  intros Hp. unfold render.
  rewrite split_join; [reflexivity | discriminate |].
  constructor; [reflexivity | exact Hp].
Qed.

(** ** What the globs match *)

Ltac glob_cases H :=
  cbn [glob_match comp_match] in H;
  repeat match type of H with
         | (_ && _)%bool = true =>
             let E := fresh "E" in
             apply andb_prop in H; destruct H as [E H];
             try apply String.eqb_eq in E
         end.

Lemma shared_data_match (marker : string) (p : path) :
  glob_match (shared_data marker) p = true <->
  exists d, p = (shared_dir d ++ [marker])%list /\ hidden d = false.
Proof.
  unfold shared_data, shared_dir. split.
  - intros H.
    destruct p as [| a [| b [| c [| d [| m [| ? ?]]]]]];
      glob_cases H; try discriminate H.
    subst. exists d. split; [reflexivity |].
    destruct (hidden d); [discriminate | reflexivity].
  - intros (d & -> & Hd). cbn [app glob_match comp_match].
    rewrite Hd, !String.eqb_refl. reflexivity.
Qed.

Lemma datasets_match (marker : string) (p : path) :
  glob_match (datasets marker) p = true <->
  exists d, p = (datasets_dir d ++ [marker])%list /\ hidden d = false.
Proof.
  unfold datasets, datasets_dir. split.
  - intros H.
    destruct p as [| a [| d [| c [| m [| ? ?]]]]];
      glob_cases H; try discriminate H.
    subst. exists d. split; [reflexivity |].
    destruct (hidden d); [discriminate | reflexivity].
  - intros (d & -> & Hd). cbn [app glob_match comp_match].
    rewrite Hd, !String.eqb_refl. reflexivity.
Qed.

(** ** The lines a pipeline leaves *)

(** [ls -d PAT | grep -v e | cut -f1-n | sort | uniq], when the glob
    matches. *)
Lemma pipeline_lines (fs : filesystem) (pat : list gcomp) (e : string)
      (n : nat) (x : string) :
  matched fs pat ->
  In x (capture (pipe (pipe (pipe (pipe (ls_d fs pat)
         (grep_v e)) (cut_fields n)) sort) uniq)) <->
  exists p, In p fs /\ glob_match pat p = true /\
            contains e (render p) = false /\ x = cut_line n (render p).
Proof.
  intros (p0 & Hin0 & Hm0).
  unfold ls_d.
  destruct (filter (glob_match pat) fs) as [| q qs] eqn:Ef.
  - exfalso.
    assert (H : In p0 (filter (glob_match pat) fs))
      by (apply filter_In; auto).
    rewrite Ef in H. exact H.
  - unfold capture, pipe; cbn [stdout stderr].
    rewrite app_nil_r, uniq_In, sort_In.
    unfold cut_fields, grep_v. rewrite in_map_iff.
    rewrite <- Ef. split.
    + intros (l & Hx & Hl). apply filter_In in Hl. destruct Hl as [Hl Hc].
      apply in_map_iff in Hl. destruct Hl as (p & Hp & Hpin).
      apply filter_In in Hpin. destruct Hpin as [Hpin Hpm].
      exists p. subst l. repeat split; auto.
      destruct (contains e (render p)); [discriminate | reflexivity].
    + intros (p & Hpin & Hpm & Hc & ->).
      exists (render p). split; [reflexivity |].
      apply filter_In. split.
      * apply in_map. apply filter_In. auto.
      * rewrite Hc. reflexivity.
Qed.

(** [ls -d PAT |& grep -v e | cut -f1-n | sort | uniq], when [e] occurs
    in the complaint of [ls]. *)
Lemma pipeline_both_lines (fs : filesystem) (pat : list gcomp) (e : string)
      (n : nat) (x : string) :
  contains e ("ls: cannot access '" ++ render_pattern pat
              ++ "': No such file or directory") = true ->
  In x (capture (pipe (pipe (pipe (pipe_both (ls_d fs pat)
         (grep_v e)) (cut_fields n)) sort) uniq)) <->
  exists p, In p fs /\ glob_match pat p = true /\
            contains e (render p) = false /\ x = cut_line n (render p).
Proof.
  intros Hmsg.
  unfold ls_d.
  destruct (filter (glob_match pat) fs) as [| q qs] eqn:Ef.
  - unfold capture, pipe, pipe_both; cbn [stdout stderr app].
    unfold grep_v. cbn [filter]. rewrite Hmsg. cbn.
    split; [intros [] |].
    intros (p & Hpin & Hpm & _).
    assert (H : In p (filter (glob_match pat) fs))
      by (apply filter_In; auto).
    rewrite Ef in H. destruct H.
  - unfold capture, pipe, pipe_both; cbn [stdout stderr].
    rewrite !app_nil_r, uniq_In, sort_In.
    unfold cut_fields, grep_v. rewrite in_map_iff.
    rewrite <- Ef. split.
    + intros (l & Hx & Hl). apply filter_In in Hl. destruct Hl as [Hl Hc].
      apply in_map_iff in Hl. destruct Hl as (p & Hp & Hpin).
      apply filter_In in Hpin. destruct Hpin as [Hpin Hpm].
      exists p. subst l. repeat split; auto.
      destruct (contains e (render p)); [discriminate | reflexivity].
    + intros (p & Hpin & Hpm & Hc & ->).
      exists (render p). split; [reflexivity |].
      apply filter_In. split.
      * apply in_map. apply filter_In. auto.
      * rewrite Hc. reflexivity.
Qed.

Lemma well_formed_path (fs : filesystem) (p : path) :
  well_formed fs -> In p fs -> Forall (fun name => no_slash name = true) p.
Proof.
  unfold well_formed. intros Hwf Hin.
  rewrite forallb_forall in Hwf. specialize (Hwf p Hin).
  rewrite forallb_forall in Hwf. apply Forall_forall. exact Hwf.
Qed.

Lemma append_assoc (a b c : string) : ((a ++ b) ++ c = a ++ (b ++ c))%string.
Proof. induction a as [| x a IH]; simpl; [reflexivity | now rewrite IH]. Qed.

Lemma join_with_snoc (c : ascii) (fields : list string) (m : string) :
  fields <> [] ->
  join_with c (fields ++ [m])%list = (join_with c fields ++ String c m)%string.
Proof.
  induction fields as [| f fs IH]; [congruence |]. intros _.
  destruct fs as [| g fs'].
  - reflexivity.
  - change (join_with c ((f :: g :: fs') ++ [m])%list)
      with (f ++ String c (join_with c ((g :: fs') ++ [m])%list))%string.
    rewrite IH by discriminate.
    change (join_with c (f :: g :: fs'))
      with (f ++ String c (join_with c (g :: fs')))%string.
    rewrite append_assoc. reflexivity.
Qed.

Lemma render_snoc (p : path) (m : string) :
  render (p ++ [m])%list = (render p ++ String "/" m)%string.
Proof.
  unfold render.
  change (EmptyString :: (p ++ [m])%list) with ((EmptyString :: p) ++ [m])%list.
  apply join_with_snoc. discriminate.
Qed.

(** One listing of the shared area, when its glob matches. *)
Lemma shared_lines (fs : filesystem) (marker x : string) :
  well_formed fs ->
  matched fs (shared_data marker) ->
  In x (capture (pipe (pipe (pipe (pipe (ls_d fs (shared_data marker))
         (grep_v "README")) (cut_fields 5)) sort) uniq)) <->
  exists d, In (shared_dir d ++ [marker])%list fs /\ hidden d = false /\
            contains "README" (render (shared_dir d ++ [marker])%list) = false /\
            x = render (shared_dir d).
Proof.
  intros Hwf Hm. rewrite (pipeline_lines _ _ _ _ _ Hm). split.
  - intros (p & Hin & Hg & Hc & ->).
    apply shared_data_match in Hg. destruct Hg as (d & -> & Hd).
    exists d. repeat split; auto.
    unfold cut_line. rewrite cut_rendered; [reflexivity |].
    exact (well_formed_path _ _ Hwf Hin).
  - intros (d & Hin & Hd & Hc & ->).
    exists (shared_dir d ++ [marker])%list. repeat split; auto.
    + apply shared_data_match. exists d. auto.
    + unfold cut_line. rewrite cut_rendered; [reflexivity |].
      exact (well_formed_path _ _ Hwf Hin).
Qed.

(** One listing of [/datasets]. *)
Lemma datasets_lines (fs : filesystem) (marker x : string) :
  well_formed fs ->
  is_marker marker ->
  In x (capture (pipe (pipe (pipe (pipe_both (ls_d fs (datasets marker))
         (grep_v "No such")) (cut_fields 4)) sort) uniq)) <->
  exists d, In (datasets_dir d ++ [marker])%list fs /\ hidden d = false /\
            contains "No such" (render (datasets_dir d ++ [marker])%list) = false /\
            x = render (datasets_dir d).
Proof.
  intros Hwf Hmk.
  rewrite pipeline_both_lines
    by (destruct Hmk as [-> | ->]; vm_compute; reflexivity).
  split.
  - intros (p & Hin & Hg & Hc & ->).
    apply datasets_match in Hg. destruct Hg as (d & -> & Hd).
    exists d. repeat split; auto.
    unfold cut_line. rewrite cut_rendered; [reflexivity |].
    exact (well_formed_path _ _ Hwf Hin).
  - intros (d & Hin & Hd & Hc & ->).
    exists (datasets_dir d ++ [marker])%list. repeat split; auto.
    + apply datasets_match. exists d. auto.
    + unfold cut_line. rewrite cut_rendered; [reflexivity |].
      exact (well_formed_path _ _ Hwf Hin).
Qed.




(** Where no directory of the shared area has a [_mapper], the complaint
    of [ls] reaches the list: the first cell has no [|&] filter. *)
Example shared_repos_without_mapper :
  shared_repos yaml_only_fs =
    ["/project/shared/data/with-globular";
     "ls: cannot access '/project/shared/data/*/_mapper': No such file or directory"]
  /\ repos yaml_only_fs = [].
Proof. split; reflexivity. Qed.

End InventoryFacts.

(* ================================================================== *)
(** * Facts about the cells *)

Module NotebookFacts.

Import Notebook.

(** ** Exceptions *)




Lemma run_commands_events (cmds : list (list string)) (st : state) :
  events (run_commands cmds st) = (events st ++ map Ran cmds)%list.
Proof.
  revert st. induction cmds as [| argv cmds IH]; intros st; simpl.
  - now rewrite app_nil_r.
  - rewrite IH. simpl. now rewrite <- app_assoc.
Qed.




Lemma new_events_app (o : oracle) (s : stmt) (st : state) (evs : list event) :
  events (snd (exec o s st)) = (events st ++ evs)%list ->
  new_events o s st = evs.
Proof.
  intros E. unfold new_events. rewrite E.
  rewrite skipn_app, skipn_all, Nat.sub_diag. reflexivity.
Qed.







(** ** The disk *)











(** ** The order of the stages *)



















End NotebookFacts.

(* ================================================================== *)
(** * More on [makeCatalog]: the names it needs and what it computes on
      the way *)

Module MakeCatalogMore.

Import Scarlet.

Section MakeCatalog.

Context {L : Libraries}.

(** The loop over the data sets calls [mad_wavelet] once per data set,
    in order, and hands back the list of what it gave. *)
Lemma rms_loop_run (g : globals) (mw : array -> result rms)
      (ds : list data) (rs acc : list rms) (t : trace) :
  g_mad_wavelet g = Some mw ->
  Forall2 (fun d r => mw (images d) = Ok r) ds rs ->
  rms_loop g ds acc t =
  (Ok (PRmsList (acc ++ rs)),
   (t ++ repeat "mad_wavelet" (length ds))%list).
Proof.
  intros Hmw H. revert acc t.
  induction H as [| d r ds rs Hr _ IH]; intros acc t; simpl.
  - rewrite !app_nil_r. reflexivity.
  - unfold bind, lookup, call. rewrite Hmw, Hr.
    rewrite IH, <- !app_assoc. reflexivity.
Qed.

Lemma background_rms_run (g : globals) (mw : array -> result rms)
      (datas : list data) (rs : list rms) (t : trace) :
  g_datas g = Some datas ->
  g_mad_wavelet g = Some mw ->
  Forall2 (fun d r => mw (images d) = Ok r) datas rs ->
  background_rms g t =
  (Ok (match rs with
       | [r] => PRms r
       | _ => PRmsList rs
       end),
   (t ++ repeat "mad_wavelet" (length datas))%list).
Proof.
  intros Hd Hmw H. unfold background_rms, bind, lookup. rewrite Hd.
  destruct H as [| d r ds rs Hr Hrest].
  - simpl. unfold ret. rewrite app_nil_r. reflexivity.
  - destruct Hrest as [| d' r' ds' rs' Hr' Hrest'].
    + simpl. rewrite Hmw. unfold call, ret. rewrite Hr. reflexivity.
    + change (Nat.eqb (length (d :: d' :: ds')) 1) with false.
      cbv beta iota.
      exact (rms_loop_run g mw (d :: d' :: ds') (r :: r' :: rs') [] t Hmw
               (Forall2_cons _ _ Hr (Forall2_cons _ _ Hr' Hrest'))).
Qed.

(** X1.  [makeCatalog] can only return in a namespace that binds
    [sep] and [datas], and [mad_wavelet] as well unless [datas] is
    empty. *)
Theorem makeCatalog_needs_names (g : globals) (cube : array) (lvl : Z)
        (wave : bool) (v : pyval catalog rms) (t : trace) :
  run (makeCatalog g cube lvl wave) = (Ok v, t) ->
  exists sep datas,
    g_sep g = Some sep /\ g_datas g = Some datas /\
    (datas = [] \/ exists mw, g_mad_wavelet g = Some mw).
Proof.
  unfold run, makeCatalog, bind, lookup, call, ret.
  destruct (detection_image cube wave []) as [[detect | e] t1];
    [| discriminate].
  destruct (g_sep g) as [sep |]; [| discriminate].
  destruct (Background sep detect) as [bkg | e]; [| discriminate].
  destruct (extract sep detect lvl (globalrms sep bkg)) as [c | e];
    [| discriminate].
  unfold background_rms, bind, lookup.
  destruct (g_datas g) as [datas |]; [| discriminate].
  intros H. exists sep, datas. split; [reflexivity |]. split; [reflexivity |].
  destruct datas as [| d ds]; [left; reflexivity | right].
  destruct (g_mad_wavelet g) as [mw |] eqn:Emw; [exists mw; reflexivity |].
  exfalso.
  destruct ds as [| d' ds']; cbn in H; unfold bind, lookup in H;
    rewrite ?Emw in H; cbn in H; discriminate H.
Qed.

(** X2.  The background levels: with [datas] and [mad_wavelet]
    bound and [mad_wavelet] returning on every data set, [bg_rms] is
    the bare level of the data set when there is exactly one, and the
    list of the levels in the order of [datas] otherwise; an empty
    [datas] gives the empty list without [mad_wavelet] being looked
    up at all. *)
Theorem background_rms_shape (g : globals) (t : trace) :
  (forall mw datas rs,
      g_datas g = Some datas ->
      g_mad_wavelet g = Some mw ->
      Forall2 (fun d r => mw (images d) = Ok r) datas rs ->
      fst (background_rms g t) =
      Ok (match rs with
          | [r] => PRms r
          | _ => PRmsList rs
          end) /\
      length rs = length datas) /\
  (g_datas g = Some [] ->
   background_rms g t = (Ok (PRmsList []), t)).
Proof.
  split.
  - intros mw datas rs Hd Hmw H.
    rewrite (background_rms_run g mw datas rs t Hd Hmw H).
    split; [reflexivity |]. symmetry. exact (Forall2_length H).
  - intros Hd. unfold background_rms, bind, lookup. rewrite Hd. reflexivity.
Qed.


(** X4.  With [sep] bound but [datas] not, the catalog is
    extracted and then lost: both [sep] calls are made and the body
    raises NameError for [datas]. *)
Theorem makeCatalog_loses_catalog (g : globals) (sep : sep_module)
        (cube : array) (lvl : Z) (wave : bool) (t1 : trace)
        (detect : array) (bkg : background) (c : catalog) :
  g_sep g = Some sep ->
  g_datas g = None ->
  run (detection_image cube wave) = (Ok detect, t1) ->
  Background sep detect = Ok bkg ->
  extract sep detect lvl (globalrms sep bkg) = Ok c ->
  run (makeCatalog g cube lvl wave) =
  (Raise (NameError "datas"),
   (t1 ++ ["sep.Background"; "sep.extract"])%list).
Proof.
  intros Hs Hd Hdet Hb He.
  unfold run in *. unfold makeCatalog, bind. rewrite Hdet.
  unfold lookup, call. rewrite Hs, Hb, He.
  unfold background_rms, bind, lookup. rewrite Hd.
  rewrite <- app_assoc. reflexivity.
Qed.

End MakeCatalog.

Import Toy.

Lemma makeCatalog_needs_names_witness :
  exists sep datas,
    g_sep bound_globals = Some sep /\ g_datas bound_globals = Some datas /\
    (datas = [] \/ exists mw, g_mad_wavelet bound_globals = Some mw).
Proof.
  eapply (makeCatalog_needs_names bound_globals images_cube 3%Z true).
  reflexivity.
Defined.

(** Two data sets give a list of two levels; one gives a bare level. *)
Lemma background_rms_shape_witness :
  fst (background_rms
         {| g_sep := None;
            g_datas := Some [images_cube; images_cube];
            g_mad_wavelet := Some (fun a => Ok 7%Z) |} [])
  = Ok (PRmsList [7%Z; 7%Z]) /\
  fst (background_rms bound_globals []) = Ok (PRms 0%Z) /\
  background_rms {| g_sep := None; g_datas := Some []; g_mad_wavelet := None |}
                 ["np.sum"]
  = (Ok (PRmsList []), ["np.sum"]).
Proof.
  split; [| split].
  - refine (proj1 (proj1 (background_rms_shape
                            {| g_sep := None;
                               g_datas := Some [images_cube; images_cube];
                               g_mad_wavelet := Some (fun a => Ok 7%Z) |} [])
                     (fun a => Ok 7%Z) [images_cube; images_cube]
                     [7%Z; 7%Z] eq_refl eq_refl _)).
    repeat constructor.
  - refine (proj1 (proj1 (background_rms_shape bound_globals [])
                     (fun a => Ok 0%Z) [images_cube] [0%Z] eq_refl eq_refl _)).
    repeat constructor.
  - apply (proj2 (background_rms_shape
                    {| g_sep := None; g_datas := Some [];
                       g_mad_wavelet := None |} ["np.sum"])).
    reflexivity.
Defined.


Lemma makeCatalog_loses_catalog_witness :
  run (makeCatalog {| g_sep := Some toy_sep; g_datas := None;
                      g_mad_wavelet := None |} images_cube 3 true) =
  (Raise (NameError "datas"),
   ["np.sum"; "Starlet"; "getitem"; "sep.Background"; "sep.extract"]).
Proof.
  apply (makeCatalog_loses_catalog
           {| g_sep := Some toy_sep; g_datas := None; g_mad_wavelet := None |}
           toy_sep images_cube 3%Z true
           ["np.sum"; "Starlet"; "getitem"]
           {| shape := [180; 180]; label := "images" |}
           {| shape := [180; 180]; label := "images" |} [(3, 1)%Z]);
    reflexivity.
Defined.

End MakeCatalogMore.

(* ================================================================== *)
(** * The source classes cannot be instantiated *)

Module SourcesFacts.

Import Sources Notebook.

Section Sources.

Context {L : Libraries}.

(** X5.  In the namespace of the notebook [NewSourceMorphology]
    cannot be instantiated, whatever its arguments: the body raises
    NameError on [monotonic], a local it reads before any assignment,
    without having called anything; and were [monotonic] bound on
    entry, the body would raise NameError on [MonotonicityConstraint],
    still without a call.  None of the names the body needs from
    scarlet is bound by a cell of the notebook. *)
Theorem NewSourceMorphology_cannot_be_built :
  (forall frame_ center image bbox shifting,
      run (NewSourceMorphology notebook_globals frame_ center image bbox
             shifting)
      = (Raise (NameError "monotonic"), [])) /\
  (forall m frame_ center image bbox shifting,
      run (morphology_body notebook_globals (Some m) frame_ center image
             bbox shifting)
      = (Raise (NameError "MonotonicityConstraint"), [])) /\
  forallb (fun name =>
             negb (existsb (String.eqb name)
                     (flat_map (fun c => bound_names (code c))
                               scarlet_tutorial)))
          ("monotonic" :: missing_names) = true.
Proof.
  split; [| split].
  - reflexivity.
  - intros m frame_ center image bbox shifting. destruct m; reflexivity.
  - vm_compute. reflexivity.
Qed.

(** X6.  Nor can [NewExtendedSource]: for every behaviour of the
    libraries its constructor does not return; when
    [init_extended_source], the two slices of the box,
    [TabulatedSpectrum] and [get_pixel] have returned, it raises the
    NameError of [NewSourceMorphology], and [FactorizedComponent] is
    never initialised. *)
Theorem NewExtendedSource_cannot_be_built
        (FC_init : frame -> spectrum -> morphology ->
                   result factorized_component)
        (model_frame : frame) (sky_coord : coord) (obs : observations)
        (coadd : option array) (coadd_rms : option Q) (thresh : Q)
        (compact shifting : bool) :
  let r := run (NewExtendedSource notebook_globals FC_init model_frame
                  sky_coord obs coadd coadd_rms thresh compact shifting) in
  (forall v, fst r <> Ok v) /\
  ~ In "FactorizedComponent.__init__" (snd r) /\
  (forall spectrum_ morph bbox b0 b1 s c,
      init_extended_source sky_coord model_frame obs coadd coadd_rms
        thresh compact true "flat" 0%Z = Ok (spectrum_, morph, bbox) ->
      box_first bbox = Ok b0 ->
      TabulatedSpectrum model_frame spectrum_ b0 = Ok s ->
      get_pixel model_frame sky_coord = Ok c ->
      box_rest bbox = Ok b1 ->
      r = (Raise (NameError "monotonic"),
           ["init_extended_source"; "Box.__getitem__"; "TabulatedSpectrum";
            "get_pixel"; "Box.__getitem__"])).
Proof.
  cbv zeta. unfold run, NewExtendedSource, Py.bind, Py.call.
  destruct (init_extended_source sky_coord model_frame obs coadd coadd_rms
              thresh compact true "flat" 0%Z)
    as [[[spectrum_ morph] bbox] | e] eqn:E0; simpl;
    [ destruct (box_first bbox) as [b0 | e] eqn:E1; simpl;
      [ destruct (TabulatedSpectrum model_frame spectrum_ b0)
          as [s | e] eqn:E2; simpl;
        [ destruct (get_pixel model_frame sky_coord) as [c | e] eqn:E3;
          simpl;
          [ destruct (box_rest bbox) as [b1 | e] eqn:E4; simpl | ] | ] | ]
    | ];
    (split; [intros v H; discriminate H |]);
    (split; [intros Hin; simpl in Hin; intuition discriminate |]);
    intros spectrum_' morph' bbox' b0' b1' s' c' H0 H1 H2 H3 H4;
    try reflexivity;
    inversion H0; subst; congruence.
Qed.

End Sources.

Import ToySources.

Lemma NewExtendedSource_cannot_be_built_witness :
  run (NewExtendedSource (L := toy_libraries) notebook_globals
         toy_FactorizedComponent_init
         model_frame (10, 20)%Z [] None None default_thresh false false)
  = (Raise (NameError "monotonic"),
     ["init_extended_source"; "Box.__getitem__"; "TabulatedSpectrum";
      "get_pixel"; "Box.__getitem__"]).
Proof.
  apply (proj2 (proj2 (NewExtendedSource_cannot_be_built
                         (L := toy_libraries)
                         toy_FactorizedComponent_init model_frame
                         (10, 20)%Z []
                         None None default_thresh false false))
           [1%Z] [2%Z] model_frame [6] [180; 180] [1%Z] (10, 20)%Z);
    reflexivity.
Defined.

End SourcesFacts.

(* ================================================================== *)
(** * More on [showRGB]: what makes it fail, and calling it twice *)

Module ShowRGBMore.

Import Deblender DeblenderFacts.

Section ShowRGB.

Context {L : Libraries}.

(** [image[f]] returns exactly when [f] is a filter of the image. *)
Lemma getitem_cases (image : MultibandImage) (f : string) :
  (exists s, getitem image f = Ok s /\ In (f, s) image) \/
  (getitem image f = Raise (LibraryError "MultibandImage.__getitem__") /\
   ~ In f (filters image)).
Proof.
  induction image as [| [f' s'] rest IH]; simpl.
  - right. auto.
  - destruct (String.eqb_spec f' f) as [-> | Hne].
    + left. exists s'. auto.
    + destruct IH as [(s & Hs & Hin) | (Hr & Hn)].
      * left. exists s. auto.
      * right. split; [exact Hr |]. intros [E | Hin]; [| exact (Hn Hin)].
        exact (Hne E).
Qed.

Lemma band_raises (image : MultibandImage) (bgr : list string) (k : nat)
      (f : string) (w : world) :
  nth_error bgr k = Some f ->
  ~ In f (filters image) ->
  band image bgr k w = Raise (LibraryError "MultibandImage.__getitem__").
Proof.
  intros Hk Hn. unfold band, index. rewrite Hk.
  destruct (getitem_cases image f) as [(s & Hs & Hin) | (Hr & _)].
  - exfalso. apply Hn. unfold filters.
    change f with (fst (f, s)). apply in_map. exact Hin.
  - rewrite Hr. reflexivity.
Qed.

Lemma band_cases (image : MultibandImage) (bgr : list string) (k : nat)
      (f : string) (w : world) :
  nth_error bgr k = Some f ->
  (exists a, band image bgr k w = Ok a) \/
  band image bgr k w = Raise (LibraryError "MultibandImage.__getitem__").
Proof.
  intros Hk. unfold band, index. rewrite Hk.
  destruct (getitem_cases image f) as [(s & Hs & _) | (Hr & _)].
  - rewrite Hs. left. eauto.
  - rewrite Hr. right. reflexivity.
Qed.

Lemma effective_bgr_other (image : MultibandImage) (bgr : list string) :
  length image <> 3 -> effective_bgr image bgr = bgr.
Proof.
  intros H. unfold effective_bgr.
  destruct (Nat.eqb_spec (length image) 3); [contradiction | reflexivity].
Qed.



(** X8.  On an image that has not exactly three bands, a [bgr] of
    fewer than three names makes the call raise IndexError before any
    band is looked up; nothing is drawn and no figure is made. *)
Theorem showRGB_short_bgr (image : MultibandImage) (bgr : list string)
        (ax : option nat) (fp : option (list (Z * Z)))
        (figsize : Z * Z) (stretch Q : Z) (w : world) :
  length image <> 3 ->
  length bgr < 3 ->
  showRGB image bgr ax fp figsize stretch Q w = (Raise IndexError, w).
Proof.
  intros H3 Hb. apply showRGB_raises.
  rewrite (effective_bgr_other _ _ H3), compose_rgb_spec.
  unfold band, index. cbn [fst].
  assert (E : nth_error bgr 2 = None) by (apply nth_error_None; lia).
  rewrite E. reflexivity.
Qed.

(** X9.  On an image that has not exactly three bands, if one of
    the three filters [bgr] names is not a filter of the image the call
    raises the error of [image[...]]; nothing is drawn and no figure
    is made. *)
Theorem showRGB_missing_band (image : MultibandImage) (bgr : list string)
        (f0 f1 f2 : string) (ax : option nat) (fp : option (list (Z * Z)))
        (figsize : Z * Z) (stretch Q : Z) (w : world) :
  length image <> 3 ->
  nth_error bgr 0 = Some f0 ->
  nth_error bgr 1 = Some f1 ->
  nth_error bgr 2 = Some f2 ->
  ~ In f0 (filters image) \/ ~ In f1 (filters image)
  \/ ~ In f2 (filters image) ->
  showRGB image bgr ax fp figsize stretch Q w
  = (Raise (LibraryError "MultibandImage.__getitem__"), w).
Proof.
  intros H3 E0 E1 E2 Hmiss. apply showRGB_raises.
  rewrite (effective_bgr_other _ _ H3), compose_rgb_spec. cbn [fst].
  destruct (band_cases image bgr 2 f2 w E2) as [(a2 & B2) | B2];
    rewrite B2; [| reflexivity].
  destruct (band_cases image bgr 1 f1 w E1) as [(a1 & B1) | B1];
    rewrite B1; [| reflexivity].
  destruct (band_cases image bgr 0 f0 w E0) as [(a0 & B0) | B0];
    rewrite B0; [| reflexivity].
  exfalso. destruct Hmiss as [Hm | [Hm | Hm]].
  - rewrite (band_raises image bgr 0 f0 w E0 Hm) in B0. discriminate B0.
  - rewrite (band_raises image bgr 1 f1 w E1 Hm) in B1. discriminate B1.
  - rewrite (band_raises image bgr 2 f2 w E2 Hm) in B2. discriminate B2.
Qed.


End ShowRGB.

Import ToyDeblender.


(** The five bands of the notebook with a [bgr] of two names. *)
Lemma showRGB_short_bgr_witness :
  showRGB grizy ["g"; "r"] None None default_figsize default_stretch
          default_Q world0
  = (Raise IndexError, world0).
Proof.
  apply showRGB_short_bgr; [discriminate | simpl; lia].
Defined.

(** The five bands of the notebook have no band [u]. *)
Lemma showRGB_missing_band_witness :
  showRGB grizy ["u"; "g"; "r"] None None default_figsize default_stretch
          default_Q world0
  = (Raise (LibraryError "MultibandImage.__getitem__"), world0).
Proof.
  apply (showRGB_missing_band grizy ["u"; "g"; "r"] "u" "g" "r");
    try reflexivity; [discriminate |].
  left. simpl. intuition discriminate.
Defined.


End ShowRGBMore.

(* ================================================================== *)
(** * More on the repository listings *)

Module InventoryMore.

Import Inventory InventoryFacts.

(** ** [np.unique] gives one list for one set of lines *)

Lemma str_lt_asym (a b : string) : str_lt a b -> str_lt b a -> False.
Proof.
  intros H1 H2. exact (str_lt_irrefl a (str_lt_trans _ _ _ H1 H2)).
Qed.

Lemma sorted_same_elements (l1 l2 : list string) :
  StronglySorted str_lt l1 -> StronglySorted str_lt l2 ->
  (forall x, In x l1 <-> In x l2) -> l1 = l2.
Proof.
  intros H1. revert l2.
  induction H1 as [| x l1 Hs1 IH Hall1]; intros l2 H2 Hsame.
  - destruct l2 as [| y l2]; [reflexivity |].
    destruct (proj2 (Hsame y) (or_introl eq_refl)).
  - destruct H2 as [| y l2 Hs2 Hall2].
    + destruct (proj1 (Hsame x) (or_introl eq_refl)).
    + rewrite Forall_forall in Hall1, Hall2.
      assert (E : x = y).
      { destruct (proj1 (Hsame x) (or_introl eq_refl)) as [E | Hx]; [auto |].
        destruct (proj2 (Hsame y) (or_introl eq_refl)) as [E | Hy]; [auto |].
        exfalso. exact (str_lt_asym _ _ (Hall1 _ Hy) (Hall2 _ Hx)). }
      subst y. f_equal. apply IH; [exact Hs2 |].
      intros z. split; intros Hz.
      * destruct (proj1 (Hsame z) (or_intror Hz)) as [E | Hz2]; [| exact Hz2].
        subst z. exfalso. exact (str_lt_irrefl _ (Hall1 _ Hz)).
      * destruct (proj2 (Hsame z) (or_intror Hz)) as [E | Hz1]; [| exact Hz1].
        subst z. exfalso. exact (str_lt_irrefl _ (Hall2 _ Hz)).
Qed.

Lemma np_unique_ext (l1 l2 : list string) :
  (forall x, In x l1 <-> In x l2) -> np_unique l1 = np_unique l2.
Proof.
  intros H. apply sorted_same_elements; try apply np_unique_sorted.
  intros x. rewrite !np_unique_In. apply H.
Qed.

(** ** What [ls -d] prints *)

Lemma ls_d_unmatched (fs : filesystem) (pat : list gcomp) :
  filter (glob_match pat) fs = [] ->
  ls_d fs pat
  = {| stdout := [];
       stderr := ["ls: cannot access '" ++ render_pattern pat
                  ++ "': No such file or directory"] |}.
Proof. intros E. unfold ls_d. rewrite E. reflexivity. Qed.

Lemma ls_d_matched (fs : filesystem) (pat : list gcomp) :
  filter (glob_match pat) fs <> [] ->
  ls_d fs pat
  = {| stdout := map render (filter (glob_match pat) fs); stderr := [] |}.
Proof.
  intros E. unfold ls_d.
  destruct (filter (glob_match pat) fs); [congruence | reflexivity].
Qed.

Lemma matched_filter (fs : filesystem) (pat : list gcomp) :
  matched fs pat <-> filter (glob_match pat) fs <> [].
Proof.
  split.
  - intros (p & Hin & Hm) E.
    assert (H : In p (filter (glob_match pat) fs)) by (apply filter_In; auto).
    rewrite E in H. exact H.
  - intros H. destruct (filter (glob_match pat) fs) as [| q qs] eqn:E;
      [congruence |].
    assert (Hq : In q (filter (glob_match pat) fs)) by (rewrite E; left; auto).
    apply filter_In in Hq. exists q. exact Hq.
Qed.

Lemma matched_or_not (fs : filesystem) (pat : list gcomp) :
  matched fs pat \/ filter (glob_match pat) fs = [].
Proof.
  destruct (filter (glob_match pat) fs) as [| q qs] eqn:E; [right; auto |].
  left. apply matched_filter. rewrite E. discriminate.
Qed.

Lemma matched_ext (fs fs' : filesystem) (pat : list gcomp) :
  (forall p, In p fs <-> In p fs') -> matched fs pat -> matched fs' pat.
Proof. intros H (p & Hin & Hm). exists p. split; [apply H |]; auto. Qed.

Lemma ls_d_ext (fs fs' : filesystem) (pat : list gcomp) :
  (forall p, In p fs <-> In p fs') ->
  (forall l, In l (stdout (ls_d fs pat)) <-> In l (stdout (ls_d fs' pat))) /\
  stderr (ls_d fs pat) = stderr (ls_d fs' pat).
Proof.
  intros H.
  destruct (matched_or_not fs pat) as [Hm | E].
  - pose proof (matched_ext _ _ _ H Hm) as Hm'.
    rewrite (ls_d_matched fs pat) by (apply matched_filter; exact Hm).
    rewrite (ls_d_matched fs' pat) by (apply matched_filter; exact Hm').
    cbn [stdout stderr]. split; [| reflexivity].
    intros l. rewrite !in_map_iff.
    split; intros (p & Hp & Hin); exists p; (split; [exact Hp |]);
      apply filter_In in Hin; apply filter_In; destruct Hin as [Hin Hg];
      (split; [apply H; exact Hin | exact Hg]).
  - assert (E' : filter (glob_match pat) fs' = []).
    { destruct (matched_or_not fs' pat) as [Hm' | E']; [| exact E'].
      exfalso.
      assert (Hm : matched fs pat)
        by (apply (matched_ext fs' fs); [intros p; symmetry; apply H | exact Hm']).
      apply matched_filter in Hm. exact (Hm E). }
    rewrite (ls_d_unmatched _ _ E), (ls_d_unmatched _ _ E').
    split; reflexivity.
Qed.

(** ** What the stages of a pipeline keep *)

Lemma grep_cut_In (e : string) (n : nat) (lines : list string) (x : string) :
  In x (cut_fields n (grep_v e lines)) <->
  exists l, In l lines /\ contains e l = false /\ x = cut_line n l.
Proof.
  unfold cut_fields, grep_v, cut_line. rewrite in_map_iff. split.
  - intros (l & Hx & Hl). apply filter_In in Hl. destruct Hl as [Hl Hc].
    exists l. repeat split; auto.
    destruct (contains e l); [discriminate | reflexivity].
  - intros (l & Hl & Hc & ->). exists l. split; [reflexivity |].
    apply filter_In. rewrite Hc. auto.
Qed.

(** [sort | uniq] at the end of a pipeline changes the order of the
    captured lines and drops repetitions, nothing else. *)
Lemma capture_sort_uniq (s : streams) (x : string) :
  In x (capture (pipe (pipe s sort) uniq)) <-> In x (capture s).
Proof.
  unfold capture, pipe; cbn [stdout stderr].
  rewrite !in_app_iff, uniq_In, sort_In. reflexivity.
Qed.

Lemma stage_lines (s : streams) (e : string) (n : nat) (x : string) :
  In x (capture (pipe (pipe (pipe (pipe s (grep_v e)) (cut_fields n)) sort) uniq))
  <-> (exists l, In l (stdout s) /\ contains e l = false /\ x = cut_line n l)
      \/ In x (stderr s).
Proof.
  rewrite capture_sort_uniq. unfold capture, pipe; cbn [stdout stderr].
  rewrite in_app_iff, grep_cut_In. reflexivity.
Qed.

Lemma stage_both_lines (s : streams) (e : string) (n : nat) (x : string) :
  In x (capture (pipe (pipe (pipe (pipe_both s (grep_v e)) (cut_fields n))
                         sort) uniq))
  <-> exists l, (In l (stdout s) \/ In l (stderr s)) /\
                contains e l = false /\ x = cut_line n l.
Proof.
  rewrite capture_sort_uniq. unfold capture, pipe, pipe_both; cbn [stdout stderr].
  rewrite app_nil_r, grep_cut_In.
  split; intros (l & Hl & H); exists l; (split; [| exact H]);
    apply in_app_iff; exact Hl.
Qed.

Lemma stage_ext (fs fs' : filesystem) (pat : list gcomp) (e : string)
      (n : nat) (x : string) :
  (forall p, In p fs <-> In p fs') ->
  In x (capture (pipe (pipe (pipe (pipe (ls_d fs pat) (grep_v e))
                               (cut_fields n)) sort) uniq)) <->
  In x (capture (pipe (pipe (pipe (pipe (ls_d fs' pat) (grep_v e))
                               (cut_fields n)) sort) uniq)).
Proof.
  intros H. destruct (ls_d_ext fs fs' pat H) as [Ho He].
  rewrite !stage_lines, He.
  split; (intros [(l & Hl & Hc) | Hx]; [left; exists l; split;
                                        [apply Ho; exact Hl | exact Hc]
                                       | right; exact Hx]).
Qed.

Lemma stage_both_ext (fs fs' : filesystem) (pat : list gcomp) (e : string)
      (n : nat) (x : string) :
  (forall p, In p fs <-> In p fs') ->
  In x (capture (pipe (pipe (pipe (pipe_both (ls_d fs pat) (grep_v e))
                               (cut_fields n)) sort) uniq)) <->
  In x (capture (pipe (pipe (pipe (pipe_both (ls_d fs' pat) (grep_v e))
                               (cut_fields n)) sort) uniq)).
Proof.
  intros H. destruct (ls_d_ext fs fs' pat H) as [Ho He].
  rewrite !stage_both_lines, He.
  split; intros (l & [Hl | Hl] & Hc); exists l; (split; [| exact Hc]);
    try (left; apply Ho; exact Hl); right; exact Hl.
Qed.

(** ** Substrings *)

Lemma prefix_append (e a b : string) :
  String.prefix e a = true -> String.prefix e (a ++ b) = true.
Proof.
  revert a. induction e as [| c e IH]; intros a.
  - intros _. destruct (a ++ b)%string; reflexivity.
  - destruct a as [| d a]; simpl; [discriminate |].
    destruct (Ascii.ascii_dec c d); [apply IH | discriminate].
Qed.

Lemma contains_append (e a b : string) :
  contains e (a ++ b) = false -> contains e a = false.
Proof.
  induction a as [| c a IH].
  - destruct e as [| d e]; [| intros _; reflexivity].
    destruct b; simpl; intros H; exact H.
  - change (contains e (String c a ++ b))
      with (String.prefix e (String c a ++ b) || contains e (a ++ b))%bool.
    change (contains e (String c a))
      with (String.prefix e (String c a) || contains e a)%bool.
    intros H. apply orb_false_elim in H. destruct H as [Hp Hc].
    rewrite (IH Hc), orb_false_r.
    destruct (String.prefix e (String c a)) eqn:E; [| reflexivity].
    rewrite <- Hp. symmetry.
    exact (prefix_append e (String c a) b E).
Qed.

(** ** The two cells *)

(** X11.  The lists of the two cells do not depend on the order in
    which the filesystem holds its entries, nor on an entry held more
    than once. *)
Theorem listing_order_irrelevant (fs fs' : filesystem) :
  (forall p, In p fs <-> In p fs') ->
  shared_repos fs = shared_repos fs' /\ repos fs = repos fs'.
Proof.
  intros H. split; apply np_unique_ext; intros x; rewrite !in_app_iff.
  - unfold shared_repos_with_mappers, shared_repos_with_yaml_files.
    rewrite (stage_ext fs fs' (shared_data "_mapper") _ _ _ H).
    rewrite (stage_ext fs fs' (shared_data "repositoryCfg.yaml") _ _ _ H).
    reflexivity.
  - unfold repos_with_mappers, repos_with_yaml_files.
    rewrite (stage_both_ext fs fs' (datasets "_mapper") _ _ _ H).
    rewrite (stage_both_ext fs fs' (datasets "repositoryCfg.yaml") _ _ _ H).
    reflexivity.
Qed.

(** X12.  The [sort | uniq] that ends each of the four pipelines has
    no effect on the lists of the cells: [np.unique] gives the same list
    without it. *)
Theorem sort_uniq_redundant (fs : filesystem) :
  shared_repos fs
  = np_unique
      (capture (pipe (pipe (ls_d fs (shared_data "_mapper"))
                        (grep_v "README")) (cut_fields 5))
       ++ capture (pipe (pipe (ls_d fs (shared_data "repositoryCfg.yaml"))
                           (grep_v "README")) (cut_fields 5)))%list /\
  repos fs
  = np_unique
      (capture (pipe (pipe_both (ls_d fs (datasets "_mapper"))
                        (grep_v "No such")) (cut_fields 4))
       ++ capture (pipe (pipe_both (ls_d fs (datasets "repositoryCfg.yaml"))
                           (grep_v "No such")) (cut_fields 4)))%list.
Proof.
  split; apply np_unique_ext; intros x; rewrite !in_app_iff.
  - unfold shared_repos_with_mappers, shared_repos_with_yaml_files.
    rewrite !capture_sort_uniq. reflexivity.
  - unfold repos_with_mappers, repos_with_yaml_files.
    rewrite !capture_sort_uniq. reflexivity.
Qed.

(** X13.  The second cell never lists a complaint of [ls]: no line
    of [repos] holds "No such", and where neither glob matches the list
    is empty. *)
Theorem repos_without_complaint (fs : filesystem) :
  well_formed fs ->
  (forall x, In x (repos fs) -> contains "No such" x = false) /\
  (~ matched fs (datasets "_mapper") ->
   ~ matched fs (datasets "repositoryCfg.yaml") ->
   repos fs = []).
Proof.
  intros Hwf. split.
  - intros x Hx. unfold repos in Hx.
    apply np_unique_In, in_app_or in Hx.
    unfold repos_with_mappers, repos_with_yaml_files in Hx.
    destruct Hx as [Hx | Hx];
      apply datasets_lines in Hx;
      try exact Hwf; try (unfold is_marker; auto; fail);
      destruct Hx as (d & _ & _ & Hc & ->);
      rewrite render_snoc in Hc;
      exact (contains_append _ _ _ Hc).
  - intros Hm Hy.
    assert (Em : filter (glob_match (datasets "_mapper")) fs = [])
      by (destruct (matched_or_not fs (datasets "_mapper")); tauto).
    assert (Ey : filter (glob_match (datasets "repositoryCfg.yaml")) fs = [])
      by (destruct (matched_or_not fs (datasets "repositoryCfg.yaml")); tauto).
    unfold repos, repos_with_mappers, repos_with_yaml_files.
    rewrite (ls_d_unmatched _ _ Em), (ls_d_unmatched _ _ Ey).
    reflexivity.
Qed.

Lemma shared_unmatched (fs : filesystem) (marker : string) :
  filter (glob_match (shared_data marker)) fs = [] ->
  capture (pipe (pipe (pipe (pipe (ls_d fs (shared_data marker))
    (grep_v "README")) (cut_fields 5)) sort) uniq)
  = ["ls: cannot access '" ++ render_pattern (shared_data marker)
     ++ "': No such file or directory"].
Proof. intros E. rewrite (ls_d_unmatched _ _ E). reflexivity. Qed.

Lemma shared_line_is_a_path (fs : filesystem) (marker x : string) :
  well_formed fs ->
  matched fs (shared_data marker) ->
  In x (capture (pipe (pipe (pipe (pipe (ls_d fs (shared_data marker))
         (grep_v "README")) (cut_fields 5)) sort) uniq)) ->
  String.prefix "/" x = true.
Proof.
  intros Hwf Hm Hx. apply (shared_lines fs marker x Hwf Hm) in Hx.
  destruct Hx as (d & _ & _ & _ & ->). reflexivity.
Qed.

(** X14.  The first cell lists the complaint of [ls] as if it were a
    repository exactly when the glob of one of its two pipelines
    matches nothing. *)
Theorem shared_repos_lists_complaint (fs : filesystem) :
  well_formed fs ->
  (In "ls: cannot access '/project/shared/data/*/_mapper': No such file or directory"
      (shared_repos fs)
   <-> ~ matched fs (shared_data "_mapper")) /\
  (In "ls: cannot access '/project/shared/data/*/repositoryCfg.yaml': No such file or directory"
      (shared_repos fs)
   <-> ~ matched fs (shared_data "repositoryCfg.yaml")).
Proof.
  intros Hwf.
  unfold shared_repos, shared_repos_with_mappers, shared_repos_with_yaml_files.
  split; rewrite np_unique_In, in_app_iff; split.
  - intros Hin Hm. destruct Hin as [Hin | Hin].
    + apply (shared_line_is_a_path fs _ _ Hwf Hm) in Hin. discriminate Hin.
    + destruct (matched_or_not fs (shared_data "repositoryCfg.yaml"))
        as [Hy | Ey].
      * apply (shared_line_is_a_path fs _ _ Hwf Hy) in Hin. discriminate Hin.
      * rewrite (shared_unmatched _ _ Ey) in Hin.
        destruct Hin as [E | []].
        apply (f_equal String.length) in E. vm_compute in E. discriminate E.
  - intros Hm. left.
    destruct (matched_or_not fs (shared_data "_mapper")) as [Hm' | Em];
      [contradiction |].
    rewrite (shared_unmatched _ _ Em). left. reflexivity.
  - intros Hin Hy. destruct Hin as [Hin | Hin].
    + destruct (matched_or_not fs (shared_data "_mapper")) as [Hm | Em].
      * apply (shared_line_is_a_path fs _ _ Hwf Hm) in Hin. discriminate Hin.
      * rewrite (shared_unmatched _ _ Em) in Hin.
        destruct Hin as [E | []].
        apply (f_equal String.length) in E. vm_compute in E. discriminate E.
    + apply (shared_line_is_a_path fs _ _ Hwf Hy) in Hin. discriminate Hin.
  - intros Hy. right.
    destruct (matched_or_not fs (shared_data "repositoryCfg.yaml"))
      as [Hy' | Ey]; [contradiction |].
    rewrite (shared_unmatched _ _ Ey). left. reflexivity.
Qed.

(** The sample filesystem, listed from the end. *)
Lemma listing_order_irrelevant_witness :
  shared_repos sample_fs = shared_repos (rev sample_fs) /\
  repos sample_fs = repos (rev sample_fs).
Proof.
  apply listing_order_irrelevant. intros p. apply in_rev.
Defined.

Lemma repos_without_complaint_witness :
  contains "No such" "/datasets/hsc/repo" = false /\ repos [] = [].
Proof.
  split.
  - refine (proj1 (repos_without_complaint sample_fs _) _ _);
      [reflexivity | vm_compute; auto].
  - refine (proj2 (repos_without_complaint [] _) _ _);
      [reflexivity | |]; intros (p & [] & _).
Defined.

(** A shared area in which no directory has a [_mapper]. *)
Lemma shared_repos_lists_complaint_witness :
  In "ls: cannot access '/project/shared/data/*/_mapper': No such file or directory"
     (shared_repos yaml_only_fs)
  <-> ~ matched yaml_only_fs (shared_data "_mapper").
Proof.
  refine (proj1 (shared_repos_lists_complaint yaml_only_fs _)). reflexivity.
Defined.

End InventoryMore.

(* ================================================================== *)
(** * More on the runs of the notebooks *)

Module NotebookMore.

Import Notebook NotebookFacts Runs.

(** ** A run from the top *)

Lemma run_cells_app (o : oracle) (pre post : notebook) (st : state) :
  run_cells o (pre ++ post)%list st
  = match run_cells o pre st with
    | (Normal, st') => run_cells o post st'
    | raised => raised
    end.
Proof.
  revert st. induction pre as [| c pre IH]; intros st; simpl; [reflexivity |].
  destruct (exec o (code c) st) as [[| e] st1]; [apply IH | reflexivity].
Qed.

(** A cell that is not valid Python ends the run, whatever follows it. *)
Lemma run_stops_at_invalid (o : oracle) (pre post : notebook) (c : cell)
      (st : state) :
  code c = Invalid ->
  run_cells o (pre ++ c :: post)%list st
  = match run_cells o pre st with
    | (Normal, st') => (Raised SyntaxError, st')
    | raised => raised
    end.
Proof.
  intros Hc. rewrite run_cells_app.
  destruct (run_cells o pre st) as [[| e] st1]; [| reflexivity].
  simpl. rewrite Hc. reflexivity.
Qed.


(** ** The events of a run come from the text *)

Lemma adds_refl (P : event -> Prop) (st : state) : adds P st (Normal, st).
Proof. exists []. simpl. rewrite app_nil_r. auto. Qed.

Lemma adds_step (P : event -> Prop) (st st1 : state) (o1 : outcome)
      (r : outcome * state) :
  adds P st (o1, st1) -> adds P st1 r -> adds P st r.
Proof.
  intros (evs1 & E1 & Q1) (evs2 & E2 & Q2). simpl in *.
  exists (evs1 ++ evs2)%list. split.
  - rewrite E2, E1, app_assoc. reflexivity.
  - apply Forall_app. auto.
Qed.

Lemma adds_weaken (P Q : event -> Prop) (st : state) (r : outcome * state) :
  (forall e, P e -> Q e) -> adds P st r -> adds Q st r.
Proof.
  intros H (evs & E & F). exists evs. split; [exact E |].
  eapply Forall_impl; [exact H | exact F].
Qed.

Lemma from_text_incl (cs cs' : list call) (ms ms' : list (list string))
      (e : event) :
  incl cs cs' -> incl ms ms' -> from_text cs ms e -> from_text cs' ms' e.
Proof. intros Hc Hm. destruct e; simpl; auto. Qed.

Lemma run_calls_text (o : oracle) (cs : list call) (ms : list (list string))
      (st : state) :
  adds (from_text cs ms) st (run_calls o cs st).
Proof.
  revert st.
  assert (H : forall cs', incl cs' cs ->
              forall st, adds (from_text cs ms) st (run_calls o cs' st)).
  { induction cs' as [| c cs' IH]; intros Hi st; simpl.
    - apply adds_refl.
    - assert (Hc : In c cs) by (apply Hi; left; reflexivity).
      assert (Hi' : incl cs' cs) by (intros x Hx; apply Hi; right; exact Hx).
      destruct (raises o (length (events st)) c).
      + exists [Called c true]. simpl. split; [reflexivity |].
        constructor; [exact Hc | constructor].
      + eapply adds_step; [| apply IH; exact Hi'].
        instantiate (1 := Normal).
        exists [Called c false]. simpl. split; [reflexivity |].
        constructor; [exact Hc | constructor]. }
  apply H. apply incl_refl.
Qed.

Lemma loop_adds (P : event -> Prop) (body : state -> outcome * state)
      (n : nat) :
  (forall st, adds P st (body st)) ->
  forall st, adds P st (loop body n st).
Proof.
  intros Hb. induction n as [| n IH]; intros st; simpl.
  - apply adds_refl.
  - specialize (Hb st). destruct (body st) as [[| e] st1].
    + eapply adds_step; [exact Hb | apply IH].
    + exact Hb.
Qed.

Ltac text_incl :=
  apply from_text_incl;
  auto using incl_refl, incl_appl, incl_appr, incl_nil_l.

Lemma exec_text (o : oracle) (s : stmt) :
  forall st, adds (from_text (calls_in s) (commands_in s)) st (exec o s st).
Proof.
  induction s; intros st; cbn [exec calls_in commands_in];
    try apply adds_refl;
    try apply run_calls_text.
  - (* Seq *)
    pose proof (IHs1 st) as H1.
    apply (adds_weaken _ (from_text (calls_in s1 ++ calls_in s2)%list
                            (commands_in s1 ++ commands_in s2)%list)) in H1;
      [| intros ev; text_incl].
    destruct (exec o s1 st) as [[| e] st1]; [| exact H1].
    eapply adds_step; [exact H1 |].
    eapply adds_weaken; [| apply IHs2]. intros ev; text_incl.
  - (* Shell *)
    exists (map Ran commands). simpl. split; [apply run_commands_events |].
    apply Forall_forall. intros e He. apply in_map_iff in He.
    destruct He as (argv & <- & Hin). exact Hin.
  - (* For *)
    apply loop_adds. exact IHs.
  - (* If *)
    pose proof (run_calls_text o test
                  (commands_in s1 ++ commands_in s2)%list st) as H0.
    apply (adds_weaken _ (from_text (test ++ calls_in s1 ++ calls_in s2)%list
                            (commands_in s1 ++ commands_in s2)%list)) in H0;
      [| intros ev; text_incl].
    destruct (run_calls o test st) as [[| e] st1]; [| exact H0].
    eapply adds_step; [exact H0 |].
    destruct (truth o (length (events st1))).
    + eapply adds_weaken; [| apply IHs1]. intros ev; text_incl.
    + eapply adds_weaken; [| apply IHs2]. intros ev; text_incl.
  - (* Try *)
    pose proof (IHs1 st) as H1.
    apply (adds_weaken _ (from_text (calls_in s1 ++ calls_in s2)%list
                            (commands_in s1 ++ commands_in s2)%list)) in H1;
      [| intros ev; text_incl].
    destruct (exec o s1 st) as [[| e] st1]; [exact H1 |].
    eapply adds_step; [exact H1 |].
    eapply adds_weaken; [| apply IHs2]. intros ev; text_incl.
  - (* Class *)
    apply IHs.
Qed.

Lemma run_cells_text (o : oracle) (nb : notebook) :
  forall st, adds (from_text (calls_of nb) (commands_of nb)) st
                  (run_cells o nb st).
Proof.
  induction nb as [| c nb IH]; intros st; simpl.
  - apply adds_refl.
  - unfold calls_of, commands_of. cbn [flat_map].
    fold (calls_of nb). fold (commands_of nb).
    pose proof (exec_text o (code c) st) as H1.
    apply (adds_weaken _ (from_text (calls_in (code c) ++ calls_of nb)%list
                            (commands_in (code c) ++ commands_of nb)%list)) in H1;
      [| intros ev; text_incl].
    destruct (exec o (code c) st) as [[| e] st1]; [| exact H1].
    eapply adds_step; [exact H1 |].
    eapply adds_weaken; [| apply IH]. intros ev; text_incl.
Qed.

Lemma adds_added (P : event -> Prop) (st : state) (r : outcome * state) :
  adds P st r -> Forall P (added st r).
Proof.
  intros (evs & E & F). unfold added. rewrite E.
  rewrite skipn_app, skipn_all, Nat.sub_diag. exact F.
Qed.

(** A run that ends where the run of [pre] ends, or with the syntax
    error of the cell after [pre], does not end normally and makes no
    call that is not written in [pre]. *)
Lemma stopped_run (o : oracle) (nb pre : notebook) (st : state) :
  run_cells o nb st
  = match run_cells o pre st with
    | (Normal, st') => (Raised SyntaxError, st')
    | raised => raised
    end ->
  fst (run_cells o nb st) <> Normal /\
  forall c r, In (Called c r) (added st (run_cells o nb st)) ->
              In c (calls_of pre).
Proof.
  intros E. split.
  - rewrite E. destruct (run_cells o pre st) as [[| e] st1]; discriminate.
  - intros c r Hin.
    pose proof (adds_added _ _ _ (run_cells_text o pre st)) as F.
    rewrite Forall_forall in F.
    apply (F (Called c r)).
    unfold added in *. rewrite E in Hin.
    destruct (run_cells o pre st) as [[| e] st1]; exact Hin.
Qed.

Lemma scarlet_tutorial_split :
  scarlet_tutorial
  = (cells_above 1128 scarlet_tutorial
       ++ {| line := 1128; code := Invalid |}
       :: skipn 18 scarlet_tutorial)%list.
Proof. vm_compute. reflexivity. Qed.

Lemma scarlet_tutorial_calls_above :
  forallb (fun k => negb (String.eqb (callee k) "scarlet.Blend"
                          || String.eqb (callee k) "blend.fit"
                          || String.eqb (callee k) "scarlet.measure.flux"))
          (calls_of (cells_above 1128 scarlet_tutorial)) = true.
Proof. vm_compute. reflexivity. Qed.

(** X16.  The scarlet tutorial cannot be run from the top to its end:
    the cell at line 1128 is not valid Python, so whatever the libraries
    do the run ends in an exception in the cells above that line or
    with the syntax error of that cell, and neither [scarlet.Blend] nor
    [blend.fit] nor [scarlet.measure.flux] is ever called. *)
Theorem scarlet_tutorial_stops_at_invalid_cell (o : oracle) (st : state) :
  run_cells o scarlet_tutorial st
  = match run_cells o (cells_above 1128 scarlet_tutorial) st with
    | (Normal, st') => (Raised SyntaxError, st')
    | raised => raised
    end /\
  fst (run_cells o scarlet_tutorial st) <> Normal /\
  forall c r,
    In (Called c r) (added st (run_cells o scarlet_tutorial st)) ->
    In c (calls_of (cells_above 1128 scarlet_tutorial)) /\
    callee c <> "scarlet.Blend" /\ callee c <> "blend.fit" /\
    callee c <> "scarlet.measure.flux".
Proof.
  pose proof (eq_trans
                (f_equal (fun nb => run_cells o nb st) scarlet_tutorial_split)
                (run_stops_at_invalid o (cells_above 1128 scarlet_tutorial)
                   (skipn 18 scarlet_tutorial)
                   {| line := 1128; code := Invalid |} st eq_refl)) as E.
  cbv beta in E.
  destruct (stopped_run o _ _ st E) as [Hn Hcalls].
  split; [exact E |]. split; [exact Hn |].
  intros c r Hin. pose proof (Hcalls c r Hin) as Hc.
  split; [exact Hc |].
  pose proof scarlet_tutorial_calls_above as Hall.
  rewrite forallb_forall in Hall. specialize (Hall c Hc).
  apply negb_true_iff in Hall.
  apply orb_false_elim in Hall. destruct Hall as [Hall H3].
  apply orb_false_elim in Hall. destruct Hall as [H1 H2].
  apply String.eqb_neq in H1, H2, H3. auto.
Qed.

(** ** The loops over the repositories *)

Lemma taster_body (o : oracle) (st : state) :
  (forall n c, raises o n c = true -> callee c <> "print") ->
  exists evs,
    fst (exec o (Try (block [
            Simple ["taster"] [Call "stackclub.Taster" [Var "repo"]];
            Simple [] [Call "taster.report" []] ])
         (Simple [] [Call "print" [Str "Taster failed to explore repo ";
                                   Var "repo"]])) st) = Normal /\
    events (snd (exec o (Try (block [
            Simple ["taster"] [Call "stackclub.Taster" [Var "repo"]];
            Simple [] [Call "taster.report" []] ])
         (Simple [] [Call "print" [Str "Taster failed to explore repo ";
                                   Var "repo"]])) st))
    = (events st ++ evs)%list /\
    length (filter (made "stackclub.Taster") evs) = 1 /\
    length (filter (returned "taster.report") evs)
    + length (filter (made "print") evs) = 1.
Proof.
  intros Hp. cbn [exec block run_calls].
  assert (Hpr : forall n, raises o n
                  (Call "print" [Str "Taster failed to explore repo ";
                                 Var "repo"]) = false).
  { intros n. destruct (raises o n _) eqn:E; [| reflexivity].
    exfalso. exact (Hp _ _ E eq_refl). }
  destruct (raises o (length (events st)) (Call "stackclub.Taster" [Var "repo"])).
  - rewrite Hpr.
    exists [Called (Call "stackclub.Taster" [Var "repo"]) true;
            Called (Call "print" [Str "Taster failed to explore repo ";
                                  Var "repo"]) false].
    cbn [fst snd events log put]. rewrite <- app_assoc.
    repeat split; reflexivity.
  - match goal with
    | |- context [raises o ?n (Call "taster.report" [])] =>
        destruct (raises o n (Call "taster.report" []))
    end.
    + rewrite Hpr.
      exists [Called (Call "stackclub.Taster" [Var "repo"]) false;
              Called (Call "taster.report" []) true;
              Called (Call "print" [Str "Taster failed to explore repo ";
                                    Var "repo"]) false].
      cbn [fst snd events log put]. rewrite <- !app_assoc.
      repeat split; reflexivity.
    + exists [Called (Call "stackclub.Taster" [Var "repo"]) false;
              Called (Call "taster.report" []) false].
      cbn [fst snd events log put]. rewrite <- !app_assoc.
      repeat split; reflexivity.
Qed.

Lemma loop_counts (body : state -> outcome * state) (f g h : event -> bool) :
  (forall st, exists evs,
      fst (body st) = Normal /\
      events (snd (body st)) = (events st ++ evs)%list /\
      length (filter f evs) = 1 /\
      length (filter g evs) + length (filter h evs) = 1) ->
  forall n st, exists evs,
      fst (loop body n st) = Normal /\
      events (snd (loop body n st)) = (events st ++ evs)%list /\
      length (filter f evs) = n /\
      length (filter g evs) + length (filter h evs) = n.
Proof.
  intros Hb. induction n as [| n IH]; intros st; simpl.
  - exists []. rewrite app_nil_r. auto.
  - destruct (Hb st) as (evs1 & N1 & E1 & F1 & G1).
    destruct (body st) as [[| e] st1]; simpl in N1, E1; [| discriminate N1].
    destruct (IH st1) as (evs2 & N2 & E2 & F2 & G2).
    exists (evs1 ++ evs2)%list.
    rewrite !filter_app, !length_app, E2, E1, app_assoc.
    repeat split; auto; lia.
Qed.

(** X17.  As long as [print] does not raise, a loop over the
    repositories tries every repository once, whatever the Taster
    raises on the way: [stackclub.Taster] is called as many times as
    there are repositories, each repository gets either a report that
    returned or the failure message, and the loop ends normally. *)
Theorem taster_loop_tries_every_repo (source : string) (o : oracle)
        (st : state) :
  (forall n c, raises o n c = true -> callee c <> "print") ->
  fst (exec o (taster_loop source) st) = Normal /\
  length (filter (made "stackclub.Taster") (new_events o (taster_loop source) st))
  = iterations o (length (events st)) /\
  length (filter (returned "taster.report")
            (new_events o (taster_loop source) st))
  + length (filter (made "print") (new_events o (taster_loop source) st))
  = iterations o (length (events st)).
Proof.
  intros Hp.
  destruct (loop_counts _ (made "stackclub.Taster") (returned "taster.report")
              (made "print") (fun st' => taster_body o st' Hp)
              (iterations o (length (events st))) st)
    as (evs & N & E & F & G).
  assert (En : new_events o (taster_loop source) st = evs)
    by (apply new_events_app; exact E).
  rewrite En. split; [exact N | split; [exact F | exact G]].
Qed.


(** Two repositories, on each of which [taster.report] raises. *)
Lemma taster_loop_tries_every_repo_witness :
  fst (exec report_fails (taster_loop "repos") start) = Normal /\
  length (filter (made "stackclub.Taster")
            (new_events report_fails (taster_loop "repos") start)) = 2 /\
  length (filter (returned "taster.report")
            (new_events report_fails (taster_loop "repos") start))
  + length (filter (made "print")
              (new_events report_fails (taster_loop "repos") start)) = 2.
Proof.
  apply (taster_loop_tries_every_repo "repos" report_fails start).
  intros n c E Hcal.
  unfold report_fails in E. cbn [raises] in E.
  rewrite Hcal in E. vm_compute in E. discriminate E.
Defined.

End NotebookMore.
